(** * The stock, sales and customer ledger of app.py

    A shallow embedding of the Flask/SQLAlchemy handlers of [src/app.py] and
    the properties of its ledger.

    - A table is a finite map from the integer primary key to the row; a
      new row gets the key after the largest one, as SQLite gives it.
    - A [db.Float] column and a JSON number of a request are IEEE binary64
      values, as Python's [float]: [PrimFloat.add], [PrimFloat.sub] and
      [PrimFloat.ltb] are Python's [+], [-] and [<] on them.
    - A request carries the keys its handler reads, with values of the type
      the column has; a key read with [data.get] or tested with [in] may be
      absent.
    - A handler runs in a session: it reads and changes the session's view
      of the database, [db.session.commit()] makes the view durable or
      raises, and a raised exception ends the request with status 500 and
      discards what was not committed.
    - A time is a number; the clock does not move during a request. *)

From Stdlib Require Import Floats.PrimFloat.
From stdpp Require Import base option list strings pretty gmap fin_maps.
From stdpp Require Import sorting.

#[local] Set Warnings "-inexact-float".

#[local] Open Scope string_scope.

(** ** Values *)

(** What [jsonify] and [json.dumps] are given: the structured value, before
    it is serialised. *)
#[local] Unset Elimination Schemes.
Inductive Json :=
| JNull
| JNum (x : float)
| JInt (n : nat)
| JStr (s : string)
| JList (xs : list Json)
| JObj (fields : list (string * Json)).
#[local] Set Elimination Schemes.

Definition JOpt {A} (f : A → Json) (o : option A) : Json :=
  match o with Some a => f a | None => JNull end.

(** A dict built from the keys that are present in a request. *)
Definition present {A} (key : string) (f : A → Json) (o : option A)
  : list (string * Json) :=
  match o with Some a => [(key, f a)] | None => [] end.

(** ** Models (database tables), lines 22-75 *)

Module Material.
Record t := mk {
  name : string;
  quantity : float;
  type : string;
  colour : option string;
  supplier : string;
  total_quantity : float;
}.
Definition with_total_quantity (q : float) (m : t) : t :=
  mk (name m) (quantity m) (type m) (colour m) (supplier m) q.
End Material.

Module MaterialRoll.
Record t := mk {
  material_id : nat;
  quantity : float;
  date_added : nat;
}.
Definition with_quantity (q : float) (r : t) : t :=
  mk (material_id r) q (date_added r).
End MaterialRoll.

Module Customer.
Record t := mk {
  name : string;
  contact : string;
  debt : float;
  location : option string;
}.
Definition with_debt (d : float) (c : t) : t :=
  mk (name c) (contact c) d (location c).
Definition with_details (n k : string) (c : t) : t :=
  mk n k (debt c) (location c).
End Customer.

Module Sale.
Record t := mk {
  material_id : nat;
  customer_id : option nat;
  quantity_sold : float;
  price : float;
  date : nat;
}.
Definition with_amounts (q p : float) (s : t) : t :=
  mk (material_id s) (customer_id s) q p (date s).
Definition without_customer (s : t) : t :=
  mk (material_id s) None (quantity_sold s) (price s) (date s).
End Sale.

Module ActivityLog.
Record t := mk {
  action_type : string;
  table_name : string;
  record_id : nat;
  changes : Json;
  timestamp : nat;
}.
End ActivityLog.

(** The database: one table per model a handler touches.  ([Processing],
    lines 58-65, is declared but no handler reads or writes it.) *)
Record Db := mkDb {
  materials : gmap nat Material.t;
  material_rolls : gmap nat MaterialRoll.t;
  customers : gmap nat Customer.t;
  sales : gmap nat Sale.t;
  activity_log : gmap nat ActivityLog.t;
}.

Definition with_materials (f : gmap nat Material.t → gmap nat Material.t)
  (db : Db) : Db :=
  mkDb (f (materials db)) (material_rolls db) (customers db) (sales db)
    (activity_log db).
Definition with_material_rolls
  (f : gmap nat MaterialRoll.t → gmap nat MaterialRoll.t) (db : Db) : Db :=
  mkDb (materials db) (f (material_rolls db)) (customers db) (sales db)
    (activity_log db).
Definition with_customers (f : gmap nat Customer.t → gmap nat Customer.t)
  (db : Db) : Db :=
  mkDb (materials db) (material_rolls db) (f (customers db)) (sales db)
    (activity_log db).
Definition with_sales (f : gmap nat Sale.t → gmap nat Sale.t) (db : Db)
  : Db :=
  mkDb (materials db) (material_rolls db) (customers db) (f (sales db))
    (activity_log db).
Definition with_activity_log
  (f : gmap nat ActivityLog.t → gmap nat ActivityLog.t) (db : Db) : Db :=
  mkDb (materials db) (material_rolls db) (customers db) (sales db)
    (f (activity_log db)).

(** ** Tables *)

Section table.
Context {A : Type}.
Implicit Types (t : gmap nat A) (P : A → bool).

(** The key of an inserted row: an [INTEGER PRIMARY KEY] gets one more
    than the largest key in the table, 1 in an empty table. *)
Definition next_id t : nat := S (max_list (elements (dom t))).

Definition add_row (x : A) t : gmap nat A := <[next_id t := x]> t.

Definition earlier (kx : nat * A) (acc : option (nat * A))
  : option (nat * A) :=
  match acc with
  | Some ky => if decide (kx.1 < ky.1) then Some kx else acc
  | None => Some kx
  end.

(** [Model.query.filter_by(...).first()]: the matching row of least key. *)
Definition first_where P t : option (nat * A) :=
  foldr (λ kx acc, if P kx.2 then earlier kx acc else acc) None
    (map_to_list t).

(** [Model.query.filter_by(...).delete()]. *)
Definition delete_where P t : gmap nat A :=
  filter (λ kx, P kx.2 = false) t.
End table.

(** ** Responses *)

Record Response := mkResponse { body : Json; status : nat }.

(** [jsonify({"error": text}), code] *)
Definition error (text : string) (code : nat) : Response :=
  mkResponse (JObj [("error", JStr text)]) code.

(** [jsonify({"message": text})], status 200 unless given. *)
Definition message (text : string) (code : nat) : Response :=
  mkResponse (JObj [("message", JStr text)]) code.

Definition message_with (text key : string) (id code : nat) : Response :=
  mkResponse (JObj [("message", JStr text); (key, JInt id)]) code.

(** An exception that no handler catches. *)
Definition internal_server_error : Response := mkResponse JNull 500.

(** ** Sessions *)

(** What a request finds around it: the clock ([datetime.utcnow]) and, for
    each [db.session.commit()] in turn, whether the store writes it
    ([true], also once the list is used up) or fails. *)
Record Env := mkEnv { now : nat; commit_ok : list bool }.

Record Session := mkSession {
  stored : Db;             (* what is durably committed *)
  pending : Db;            (* the session's view: stored plus its changes *)
  outcomes : list bool;    (* of the commits to come *)
  clock : nat;
}.

Inductive Step (A : Type) :=
| Next (a : A)
| Respond (r : Response).
Arguments Next {A} a.
Arguments Respond {A} r.

Definition Handler (A : Type) : Type := Session → Step A * Session.

#[export] Instance handler_ret : MRet Handler := λ A a s, (Next a, s).
#[export] Instance handler_bind : MBind Handler := λ A B k h s,
  match h s with
  | (Next a, s') => k a s'
  | (Respond r, s') => (Respond r, s')
  end.

(** Python's [return]: the rest of the handler does not run. *)
Definition respond {A} (r : Response) : Handler A := λ s, (Respond r, s).

(** An uncaught exception: status 500, the session is rolled back. *)
Definition raise {A} : Handler A := λ s,
  (Respond internal_server_error,
   mkSession (stored s) (stored s) (outcomes s) (clock s)).

Definition query {A} (f : Db → A) : Handler A := λ s,
  (Next (f (pending s)), s).

Definition modify (f : Db → Db) : Handler unit := λ s,
  (Next tt, mkSession (stored s) (f (pending s)) (outcomes s) (clock s)).

(** [datetime.utcnow] *)
Definition utcnow : Handler nat := λ s, (Next (clock s), s).

(** [db.session.commit()] *)
Definition commit : Handler unit := λ s,
  match outcomes s with
  | false :: rest =>
      (Respond internal_server_error,
       mkSession (stored s) (stored s) rest (clock s))
  | _ :: rest => (Next tt, mkSession (pending s) (pending s) rest (clock s))
  | [] => (Next tt, mkSession (pending s) (pending s) [] (clock s))
  end.

(** One request: the database afterwards is what was committed. *)
Definition serve (h : Handler Response) (env : Env) (db : Db)
  : Response * Db :=
  match h (mkSession db db (commit_ok env) (now env)) with
  | (Next r, s) => (r, stored s)
  | (Respond r, s) => (r, stored s)
  end.

(** ** log_activity, lines 78-86 *)

Definition log_activity (action_type table_name : string) (record_id : nat)
  (changes : Json) : Handler unit :=
  timestamp ← utcnow;
  let new_log :=
    ActivityLog.mk action_type table_name record_id changes timestamp in
  modify (with_activity_log (add_row new_log));;
  commit.

(** ** Requests

    [request.json] of each route, with the keys the handler reads:
    [data["k"]] is a field, [data.get("k")] and ["k" in data] an option. *)

Module MaterialData.
Record t := mk {
  name : string;
  type : string;
  colour : option string;
  supplier : string;
}.
Definition json (d : t) : Json :=
  JObj ([("name", JStr (name d)); ("type", JStr (type d))]
        ++ present "colour" JStr (colour d)
        ++ [("supplier", JStr (supplier d))]).
End MaterialData.

Module RollsData.
Record t := mk {
  name : string;
  type : string;
  quantities : list float;
}.
End RollsData.

Module CustomerData.
Record t := mk { name : string; contact : string }.
End CustomerData.

Module CustomerEdit.
Record t := mk { name : option string; contact : option string }.
Definition json (d : t) : Json :=
  JObj (present "name" JStr (name d) ++ present "contact" JStr (contact d)).
End CustomerEdit.

Module SaleData.
Record t := mk {
  material_id : nat;
  customer_id : option nat;
  quantity_sold : float;
  price : float;
  amount_due : option float;
}.
End SaleData.

Module SaleEdit.
Record t := mk { quantity_sold : option float; price : option float }.
Definition json (d : t) : Json :=
  JObj (present "quantity_sold" JNum (quantity_sold d)
        ++ present "price" JNum (price d)).
End SaleEdit.

(** ** Materials and rolls, lines 89-223 *)

Definition same_material (name type supplier : string) (m : Material.t)
  : bool :=
  bool_decide (Material.name m = name) && bool_decide (Material.type m = type)
  && bool_decide (Material.supplier m = supplier).

Definition add_material (data : MaterialData.t) : Handler Response :=
  existing_material ← query (λ db,
    first_where (same_material (MaterialData.name data)
                   (MaterialData.type data) (MaterialData.supplier data))
      (materials db));
  match existing_material with
  | Some _ =>
      respond (message "Material already exists, use /api/add_rolls instead"
                 400)
  | None =>
      let new_material :=
        Material.mk (MaterialData.name data) 0 (MaterialData.type data)
          (MaterialData.colour data) (MaterialData.supplier data) 0 in
      new_id ← query (λ db, next_id (materials db));
      modify (with_materials (add_row new_material));;
      commit;;
      log_activity "ADD" "materials" new_id (MaterialData.json data);;
      respond (message_with "Material added successfully!" "material_id"
                 new_id 201)
  end.

Definition named (name type : string) (m : Material.t) : bool :=
  bool_decide (Material.name m = name) && bool_decide (Material.type m = type).

(** [bulk_save_objects]: the rows are inserted one after the other. *)
Definition bulk_save (material_id : nat) (date_added : nat)
  (roll_quantities : list float) (rolls : gmap nat MaterialRoll.t)
  : gmap nat MaterialRoll.t :=
  foldl (λ rolls q, add_row (MaterialRoll.mk material_id q date_added) rolls)
    rolls roll_quantities.

Definition add_rolls (data : RollsData.t) : Handler Response :=
  material ← query (λ db,
    first_where (named (RollsData.name data) (RollsData.type data))
      (materials db));
  match material with
  | None =>
      respond (error
        "Material not found, please add it first using /api/materials" 404)
  | Some (material_id, _) =>
      let roll_quantities := RollsData.quantities data in
      date_added ← utcnow;
      modify (with_material_rolls
                (bulk_save material_id date_added roll_quantities));;
      commit;;
      log_activity "ADD" "material_rolls" material_id
        (JObj [("added_rolls", JList (JNum <$> roll_quantities))]);;
      respond (message_with
        (pretty (length roll_quantities) +:+ " rolls added successfully!")
        "material_id" material_id 201)
  end.

Definition of_material (material_id : nat) (r : MaterialRoll.t) : bool :=
  bool_decide (MaterialRoll.material_id r = material_id).

Definition sold_from (material_id : nat) (s : Sale.t) : bool :=
  bool_decide (Sale.material_id s = material_id).

(** [db.session.delete(material)] and the flush of the commit.  [Sale.material]
    (line 55) declares the backref [Material.sales] with the default cascade:
    the ORM blanks [material_id] in the sales of a deleted material, which
    the [nullable=False] of line 48 refuses with an IntegrityError. *)
Definition delete_material_row (material_id : nat) : Handler unit :=
  modify (with_materials (delete material_id));;
  referenced ← query (λ db, first_where (sold_from material_id) (sales db));
  match referenced with
  | Some _ => raise
  | None => mret tt
  end.

Definition delete_material (material_id : nat) : Handler Response :=
  material ← query (λ db, materials db !! material_id);
  match material with
  | None => respond (error "Material not found" 404)
  | Some material =>
      modify (with_material_rolls (delete_where (of_material material_id)));;
      delete_material_row material_id;;
      commit;;
      log_activity "DELETE" "materials" material_id
        (JObj [("deleted_material", JStr (Material.name material))]);;
      respond (message "Material and associated rolls deleted successfully"
                 200)
  end.

Definition delete_roll (roll_id : nat) : Handler Response :=
  roll ← query (λ db, material_rolls db !! roll_id);
  match roll with
  | None => respond (error "Roll not found" 404)
  | Some roll =>
      let deleted_data :=
        JObj [("material_id", JInt (MaterialRoll.material_id roll));
              ("quantity", JNum (MaterialRoll.quantity roll))] in
      modify (with_material_rolls (delete roll_id));;
      commit;;
      log_activity "DELETE" "material_rolls" roll_id
        (JObj [("deleted_roll", deleted_data)]);;
      respond (message "Roll deleted successfully" 200)
  end.

Definition update_roll (roll_id : nat) (quantity : float) : Handler Response :=
  roll ← query (λ db, material_rolls db !! roll_id);
  match roll with
  | None => respond (error "Roll not found" 404)
  | Some roll =>
      let old_quantity := MaterialRoll.quantity roll in
      modify (with_material_rolls
                (<[roll_id := MaterialRoll.with_quantity quantity roll]>));;
      commit;;
      log_activity "UPDATE" "material_rolls" roll_id
        (JObj [("before", JObj [("quantity", JNum old_quantity)]);
               ("after", JObj [("quantity", JNum quantity)])]);;
      respond (message "Roll updated successfully!" 200)
  end.

(** ** Customers, lines 233-278 *)

Definition add_customer (data : CustomerData.t) : Handler Response :=
  let new_customer :=
    Customer.mk (CustomerData.name data) (CustomerData.contact data) 0 None in
  new_id ← query (λ db, next_id (customers db));
  modify (with_customers (add_row new_customer));;
  commit;;
  log_activity "ADD" "customers" new_id
    (JObj [("name", JStr (CustomerData.name data));
           ("contact", JStr (CustomerData.contact data))]);;
  respond (message_with "Customer added successfully!" "customer_id"
             new_id 201).

Definition edit_customer (customer_id : nat) (data : CustomerEdit.t)
  : Handler Response :=
  customer ← query (λ db, customers db !! customer_id);
  match customer with
  | None => respond (error "Customer not found" 404)
  | Some customer =>
      let old_data :=
        JObj [("name", JStr (Customer.name customer));
              ("contact", JStr (Customer.contact customer));
              ("debt", JNum (Customer.debt customer))] in
      let name := default (Customer.name customer) (CustomerEdit.name data) in
      let contact :=
        default (Customer.contact customer) (CustomerEdit.contact data) in
      modify (with_customers
                (<[customer_id := Customer.with_details name contact
                                    customer]>));;
      commit;;
      log_activity "UPDATE" "customers" customer_id
        (JObj [("before", old_data); ("after", CustomerEdit.json data)]);;
      respond (message "Customer updated successfully!" 200)
  end.

(** [db.session.delete(customer)] and the flush of the commit.
    [Sale.customer] (line 56) declares the backref [Customer.purchases] with
    the default cascade: the ORM blanks [customer_id], which is nullable
    (line 49), in the sales of a deleted customer. *)
Definition release_sale (customer_id : nat) (s : Sale.t) : Sale.t :=
  if bool_decide (Sale.customer_id s = Some customer_id)
  then Sale.without_customer s else s.

Definition delete_customer_row (customer_id : nat) : Handler unit :=
  modify (with_customers (delete customer_id));;
  modify (with_sales (fmap (release_sale customer_id))).

Definition delete_customer (customer_id : nat) : Handler Response :=
  customer ← query (λ db, customers db !! customer_id);
  match customer with
  | None => respond (error "Customer not found" 404)
  | Some customer =>
      let deleted_data :=
        JObj [("name", JStr (Customer.name customer));
              ("contact", JStr (Customer.contact customer))] in
      delete_customer_row customer_id;;
      commit;;
      log_activity "DELETE" "customers" customer_id
        (JObj [("deleted_customer", deleted_data)]);;
      respond (message "Customer deleted successfully!" 200)
  end.

(** ** Sales, lines 281-388 *)

Definition add_sale (data : SaleData.t) : Handler Response :=
  material ← query (λ db, materials db !! SaleData.material_id data);
  customer ← query (λ db,
    SaleData.customer_id data ≫= λ customer_id, customers db !! customer_id);
  match material with
  | None => respond (error "Material not found" 404)
  | Some material =>
      if (Material.total_quantity material <? SaleData.quantity_sold data)%float
      then respond (error "Insufficient stock" 400)
      else
        (* Deduct the quantity from total stock *)
        modify (with_materials
          (<[SaleData.material_id data :=
               Material.with_total_quantity
                 (Material.total_quantity material
                  - SaleData.quantity_sold data)%float material]>));;
        (* Add sale record *)
        date ← utcnow;
        let new_sale :=
          Sale.mk (SaleData.material_id data) (SaleData.customer_id data)
            (SaleData.quantity_sold data) (SaleData.price data) date in
        new_id ← query (λ db, next_id (sales db));
        modify (with_sales (add_row new_sale));;
        (* If customer has debt, update it *)
        match customer, SaleData.customer_id data, SaleData.amount_due data
        with
        | Some customer, Some customer_id, Some amount_due =>
            modify (with_customers
              (<[customer_id :=
                   Customer.with_debt
                     (Customer.debt customer + amount_due)%float customer]>))
        | _, _, _ => mret tt
        end;;
        commit;;
        log_activity "SALE" "sales" new_id
          (JObj [("material_id", JInt (SaleData.material_id data));
                 ("customer_id", JOpt JInt (SaleData.customer_id data));
                 ("quantity_sold", JNum (SaleData.quantity_sold data));
                 ("price", JNum (SaleData.price data))]);;
        respond (message "Sale recorded successfully!" 200)
  end.

Definition edit_sale (sale_id : nat) (data : SaleEdit.t) : Handler Response :=
  sale ← query (λ db, sales db !! sale_id);
  match sale with
  | None => respond (error "Sale not found" 404)
  | Some sale =>
      let old_data :=
        JObj [("quantity_sold", JNum (Sale.quantity_sold sale));
              ("price", JNum (Sale.price sale))] in
      let old_quantity := Sale.quantity_sold sale in
      let quantity_sold :=
        default (Sale.quantity_sold sale) (SaleEdit.quantity_sold data) in
      let price := default (Sale.price sale) (SaleEdit.price data) in
      modify (with_sales
                (<[sale_id := Sale.with_amounts quantity_sold price sale]>));;
      (* Adjust stock levels: [sale.material] is the row of the foreign key,
         None when there is none, and None has no attribute *)
      material ← query (λ db, materials db !! Sale.material_id sale);
      match material with
      | None => raise
      | Some material =>
          modify (with_materials
            (<[Sale.material_id sale :=
                 Material.with_total_quantity
                   (Material.total_quantity material + old_quantity
                    - quantity_sold)%float material]>));;
          commit;;
          log_activity "UPDATE" "sales" sale_id
            (JObj [("before", old_data); ("after", SaleEdit.json data)]);;
          respond (message "Sale updated successfully!" 200)
      end
  end.

Definition delete_sale (sale_id : nat) : Handler Response :=
  sale ← query (λ db, sales db !! sale_id);
  match sale with
  | None => respond (error "Sale not found" 404)
  | Some sale =>
      let deleted_data :=
        JObj [("material_id", JInt (Sale.material_id sale));
              ("customer_id", JOpt JInt (Sale.customer_id sale));
              ("quantity_sold", JNum (Sale.quantity_sold sale));
              ("price", JNum (Sale.price sale));
              ("date", JInt (Sale.date sale))] in
      material ← query (λ db, materials db !! Sale.material_id sale);
      match material with
      | None => raise
      | Some material =>
          modify (with_materials
            (<[Sale.material_id sale :=
                 Material.with_total_quantity
                   (Material.total_quantity material
                    + Sale.quantity_sold sale)%float material]>));;
          modify (with_sales (delete sale_id));;
          commit;;
          log_activity "DELETE" "sales" sale_id
            (JObj [("deleted_sale", deleted_data)]);;
          respond (message "Sale deleted and stock restored!" 200)
      end
  end.


(** ** The read-only routes, lines 135-169, 226-230, 324-338, 391-404 *)

(** [Model.query.all()]: the rows in key order. *)
Definition rows {A} (t : gmap nat A) : list (nat * A) :=
  omap (λ k, pair k <$> t !! k) (seq 0 (next_id t)).

(** [material.rolls]: the rolls whose foreign key is the key of the
    material. *)
Definition rolls_of (material_id : nat) (db : Db)
  : list (nat * MaterialRoll.t) :=
  filter (λ kr, MaterialRoll.material_id kr.2 = material_id)
    (rows (material_rolls db)).

Definition roll_json (kr : nat * MaterialRoll.t) : Json :=
  JObj [("id", JInt kr.1);
        ("quantity", JNum (MaterialRoll.quantity kr.2));
        ("date_added", JInt (MaterialRoll.date_added kr.2))].

Definition material_data (db : Db) (id : nat) (material : Material.t)
  : Json :=
  JObj [("id", JInt id);
        ("name", JStr (Material.name material));
        ("type", JStr (Material.type material));
        ("colour", JOpt JStr (Material.colour material));
        ("supplier", JStr (Material.supplier material));
        ("rolls", JList (roll_json <$> rolls_of id db))].

Definition get_materials : Handler Response :=
  materials ← query (λ db, rows (materials db));
  results ← query (λ db, (λ km, material_data db km.1 km.2) <$> materials);
  respond (mkResponse (JList results) 200).

Definition get_single_material (material_id : nat) : Handler Response :=
  material ← query (λ db, materials db !! material_id);
  match material with
  | None => respond (error "Material not found" 404)
  | Some material =>
      material_data ← query (λ db, material_data db material_id material);
      respond (mkResponse material_data 200)
  end.

Definition customer_json (kc : nat * Customer.t) : Json :=
  JObj [("id", JInt kc.1);
        ("name", JStr (Customer.name kc.2));
        ("contact", JStr (Customer.contact kc.2));
        ("debt", JNum (Customer.debt kc.2))].

Definition get_customers : Handler Response :=
  customers ← query (λ db, rows (customers db));
  respond (mkResponse (JList (customer_json <$> customers)) 200).

(** One item of the sales listing.  [s.material] and [s.customer] are the
    rows of the foreign keys, None where there is none: [s.material.name]
    then raises, and the customer is shown as a walk-in customer. *)
Definition sale_json (db : Db) (ks : nat * Sale.t) : option Json :=
  material ← materials db !! Sale.material_id ks.2;
  let customer :=
    Sale.customer_id ks.2 ≫= λ customer_id, customers db !! customer_id in
  Some (JObj [("id", JInt ks.1);
              ("material", JStr (Material.name material));
              ("customer",
               JStr (from_option Customer.name "Walk-in Customer" customer));
              ("quantity_sold", JNum (Sale.quantity_sold ks.2));
              ("price", JNum (Sale.price ks.2));
              ("date", JInt (Sale.date ks.2))]).

Definition get_sales : Handler Response :=
  sales ← query (λ db, rows (sales db));
  items ← query (λ db, mapM (sale_json db) sales);
  match items with
  | None => raise
  | Some items => respond (mkResponse (JList items) 200)
  end.

Definition log_json (kl : nat * ActivityLog.t) : Json :=
  JObj [("id", JInt kl.1);
        ("action_type", JStr (ActivityLog.action_type kl.2));
        ("table_name", JStr (ActivityLog.table_name kl.2));
        ("record_id", JInt (ActivityLog.record_id kl.2));
        ("changes", ActivityLog.changes kl.2);
        ("timestamp", JInt (ActivityLog.timestamp kl.2))].

(** [a] comes no later than [b] in a listing by [timestamp.desc()]. *)
Definition newer (a b : nat * ActivityLog.t) : Prop :=
  (ActivityLog.timestamp b.2 ≤ ActivityLog.timestamp a.2)%nat.

(** Put [x] before the first entry that is not later than it. *)
Fixpoint insert_newest (x : nat * ActivityLog.t)
  (l : list (nat * ActivityLog.t)) : list (nat * ActivityLog.t) :=
  match l with
  | [] => [x]
  | y :: l' =>
      if decide (ActivityLog.timestamp x.2 < ActivityLog.timestamp y.2)%nat
      then y :: insert_newest x l'
      else x :: l
  end.

(** The entries by descending timestamp; entries of one timestamp stay in
    the order they have in [l]. *)
Definition newest_first (l : list (nat * ActivityLog.t))
  : list (nat * ActivityLog.t) :=
  foldr insert_newest [] l.

(** [order_by(ActivityLog.timestamp.desc())]; entries of one timestamp
    stay in key order. *)
Definition get_logs : Handler Response :=
  logs ← query (λ db, newest_first (rows (activity_log db)));
  respond (mkResponse (JList (log_json <$> logs)) 200).

(** ** The command interface: the mutating routes *)

Inductive Command :=
| AddMaterial (data : MaterialData.t)
| AddRolls (data : RollsData.t)
| DeleteMaterial (material_id : nat)
| DeleteRoll (roll_id : nat)
| UpdateRoll (roll_id : nat) (quantity : float)
| AddCustomer (data : CustomerData.t)
| EditCustomer (customer_id : nat) (data : CustomerEdit.t)
| DeleteCustomer (customer_id : nat)
| AddSale (data : SaleData.t)
| EditSale (sale_id : nat) (data : SaleEdit.t)
| DeleteSale (sale_id : nat).

Definition execute (c : Command) : Handler Response :=
  match c with
  | AddMaterial data => add_material data
  | AddRolls data => add_rolls data
  | DeleteMaterial material_id => delete_material material_id
  | DeleteRoll roll_id => delete_roll roll_id
  | UpdateRoll roll_id quantity => update_roll roll_id quantity
  | AddCustomer data => add_customer data
  | EditCustomer customer_id data => edit_customer customer_id data
  | DeleteCustomer customer_id => delete_customer customer_id
  | AddSale data => add_sale data
  | EditSale sale_id data => edit_sale sale_id data
  | DeleteSale sale_id => delete_sale sale_id
  end.

(** A run of requests, each with its own environment. *)
Fixpoint serve_all (requests : list (Env * Command)) (db : Db)
  : list Response * Db :=
  match requests with
  | [] => ([], db)
  | (env, c) :: rest =>
      let '(r, db1) := serve (execute c) env db in
      let '(rs, db2) := serve_all rest db1 in
      (r :: rs, db2)
  end.

(** ** The words of the specification *)

Definition succeeded (r : Response) : Prop := status r < 400.

Definition DuplicateMaterial : Response :=
  message "Material already exists, use /api/add_rolls instead" 400.
Definition InsufficientStock : Response := error "Insufficient stock" 400.
Definition NotFound (r : Response) : Prop := status r = 404.

(** Every commit of the request is written. *)
Definition durable (env : Env) : Prop := Forall (eq true) (commit_ok env).

(** The stock counter of a material, if the material is stored. *)
Definition stock (db : Db) (material_id : nat) : option float :=
  Material.total_quantity <$> materials db !! material_id.

(** The row of key [id] in the table the audit log calls [table] is not
    the same before and after. *)
Definition row_changed (db db' : Db) (table : string) (id : nat) : Prop :=
  (table = "materials" ∧ materials db !! id ≠ materials db' !! id)
  ∨ (table = "material_rolls"
     ∧ material_rolls db !! id ≠ material_rolls db' !! id)
  ∨ (table = "customers" ∧ customers db !! id ≠ customers db' !! id)
  ∨ (table = "sales" ∧ sales db !! id ≠ sales db' !! id).

(** The quantities a sale carries over its life: the one it is recorded
    with, then each one an update supplies. *)
Definition sale_quantities (data : SaleData.t) (edits : list (Env * SaleEdit.t))
  : list float :=
  SaleData.quantity_sold data :: omap (λ e, SaleEdit.quantity_sold e.2) edits.

(** Taking [q] from [t] and putting it back gives [t]: neither float
    operation rounds the stock away. *)
Definition restores (t q : float) : Prop := (t - q + q)%float = t.

(** The life of one sale: it is recorded, updated any number of times and
    deleted, each request in its own environment.  The sale gets the next
    key of the sales table. *)
Definition lifecycle (env : Env) (data : SaleData.t)
  (edits : list (Env * SaleEdit.t)) (env' : Env) (db : Db)
  : list Response * Db :=
  let sale_id := next_id (sales db) in
  serve_all
    ((env, AddSale data)
     :: map (λ e, (e.1, EditSale sale_id e.2)) edits
     ++ [(env', DeleteSale sale_id)])
    db.

(** The sale [sale_id] of material [material_id] holds [q], and the stock
    counter is what taking [q] from [t] leaves. *)
Definition applied (t : float) (material_id sale_id : nat) (q : float)
  (db : Db) : Prop :=
  ∃ sale material,
    sales db !! sale_id = Some sale
    ∧ Sale.material_id sale = material_id
    ∧ Sale.quantity_sold sale = q
    ∧ materials db !! material_id = Some material
    ∧ Material.total_quantity material = (t - q)%float.

(** What the audit entry of a successful request names: the row the
    request created, changed or deleted, under the name the log gives its
    table; for [add_rolls], the material the rolls were added to, which is
    the stored material of least key with the name and type asked for and
    the one every roll the request stores refers to. *)
Definition audits (c : Command) (db db' : Db) (e : ActivityLog.t) : Prop :=
  let table := ActivityLog.table_name e in
  let id := ActivityLog.record_id e in
  match c with
  | AddMaterial _ =>
      table = "materials"
      ∧ materials db !! id = None ∧ is_Some (materials db' !! id)
  | AddRolls data =>
      table = "material_rolls"
      ∧ (∃ material,
           materials db !! id = Some material
           ∧ named (RollsData.name data) (RollsData.type data) material
             = true)
      ∧ (∀ k material,
           materials db !! k = Some material →
           named (RollsData.name data) (RollsData.type data) material = true →
           (id ≤ k)%nat)
      ∧ (∀ k roll,
           material_rolls db !! k = None →
           material_rolls db' !! k = Some roll →
           MaterialRoll.material_id roll = id)
  | DeleteMaterial material_id =>
      table = "materials" ∧ id = material_id
      ∧ is_Some (materials db !! id) ∧ materials db' !! id = None
  | DeleteRoll roll_id =>
      table = "material_rolls" ∧ id = roll_id
      ∧ is_Some (material_rolls db !! id) ∧ material_rolls db' !! id = None
  | UpdateRoll roll_id quantity =>
      table = "material_rolls" ∧ id = roll_id
      ∧ ∃ roll,
          material_rolls db !! id = Some roll
          ∧ material_rolls db' !! id
            = Some (MaterialRoll.with_quantity quantity roll)
  | AddCustomer _ =>
      table = "customers"
      ∧ customers db !! id = None ∧ is_Some (customers db' !! id)
  | EditCustomer customer_id _ =>
      table = "customers" ∧ id = customer_id
      ∧ is_Some (customers db !! id) ∧ is_Some (customers db' !! id)
  | DeleteCustomer customer_id =>
      table = "customers" ∧ id = customer_id
      ∧ is_Some (customers db !! id) ∧ customers db' !! id = None
  | AddSale _ =>
      table = "sales" ∧ sales db !! id = None ∧ is_Some (sales db' !! id)
  | EditSale sale_id _ =>
      table = "sales" ∧ id = sale_id
      ∧ is_Some (sales db !! id) ∧ is_Some (sales db' !! id)
  | DeleteSale sale_id =>
      table = "sales" ∧ id = sale_id
      ∧ is_Some (sales db !! id) ∧ sales db' !! id = None
  end.

(** ** Invariants of the store *)

(** Every roll and every sale refers to a stored material. *)
Definition references_kept (db : Db) : Prop :=
  (∀ k roll, material_rolls db !! k = Some roll →
             is_Some (materials db !! MaterialRoll.material_id roll))
  ∧ (∀ k sale, sales db !! k = Some sale →
               is_Some (materials db !! Sale.material_id sale)).

(** No two stored materials have the same name, type and supplier. *)
Definition materials_unique (db : Db) : Prop :=
  ∀ k k' m m',
    materials db !! k = Some m → materials db !! k' = Some m' →
    Material.name m = Material.name m' →
    Material.type m = Material.type m' →
    Material.supplier m = Material.supplier m' →
    k = k'.

(** ** Reading a response *)

(** The elements of a listing. *)
Definition items (r : Response) : list Json :=
  match body r with JList xs => xs | _ => [] end.

(** The action an audit entry gives for a request. *)
Definition action_of (c : Command) : string :=
  match c with
  | AddMaterial _ | AddRolls _ | AddCustomer _ => "ADD"
  | UpdateRoll _ _ | EditCustomer _ _ | EditSale _ _ => "UPDATE"
  | DeleteMaterial _ | DeleteRoll _ | DeleteCustomer _ | DeleteSale _ =>
      "DELETE"
  | AddSale _ => "SALE"
  end.

(** ** A small store, for the examples *)

Definition cotton : Material.t :=
  Material.mk "cotton" 0 "enli" (Some "white") "Tex" 100.

Definition amina : Customer.t := Customer.mk "Amina" "555-0101" 0 None.

Definition shop : Db :=
  mkDb {[1 := cotton]} ∅ {[1 := amina]} ∅ ∅.

(** A request at time 7 whose commits are all written. *)
Definition calm : Env := mkEnv 7 [].

(** The store after thirty metres of cotton are sold to a walk-in
    customer. *)
Definition sold : Db :=
  (serve (add_sale (SaleData.mk 1 None 30 10 None)) calm shop).2.

Definition silk : MaterialData.t :=
  MaterialData.mk "silk" "ensiz" (Some "red") "Tex".

(** The store once cotton of the same type from another supplier is
    added. *)
Definition twins : Db :=
  (serve (add_material (MaterialData.mk "cotton" "enli" None "Other")) calm
     shop).2.

(** The store once two rolls of cotton are recorded. *)
Definition stocked : Db :=
  (serve (add_rolls (RollsData.mk "cotton" "enli" [40; 60]%float)) calm
     shop).2.

(** The store once thirty metres of that cotton are sold as well. *)
Definition stocked_sold : Db :=
  (serve (add_sale (SaleData.mk 1 None 30 10 None)) calm stocked).2.

(** A request whose first commit is written and whose second fails. *)
Definition outage : Env := mkEnv 7 [true; false].

(** A store whose stock counter is not a whole number. *)
Definition scales : Db :=
  mkDb {[1 := Material.mk "thread" 0 "ensiz" None "Tex" 0.9]} ∅ ∅ ∅ ∅.

(** A store with a sale whose material is not stored. *)
Definition orphaned : Db :=
  mkDb ∅ ∅ ∅ {[1 := Sale.mk 5 None 1 1 0]} ∅.

(** * Properties *)

(** ** Tables *)

Section table_facts.
Context {A : Type}.
Implicit Types (t : gmap nat A) (P : A → bool) (x : A).

Lemma lookup_lt_next_id t k : is_Some (t !! k) → k < next_id t.
Proof.
  intros Hk. unfold next_id.
  apply Nat.lt_succ_r, max_list_elem_of_le, elem_of_elements, elem_of_dom, Hk.
Qed.

Lemma next_id_fresh t : t !! next_id t = None.
Proof.
  destruct (t !! next_id t) eqn:E; [|done].
  assert (next_id t < next_id t); [|lia].
  apply lookup_lt_next_id. by rewrite E.
Qed.

Lemma next_id_pos t : 0 < next_id t.
Proof. unfold next_id. lia. Qed.

(** The largest key before the next one is a row, unless the table is
    empty. *)
Lemma next_id_pred t : t = ∅ ∨ is_Some (t !! pred (next_id t)).
Proof.
  destruct (decide (elements (dom t) = [])) as [E|E].
  - left. apply elements_empty_inv, leibniz_equiv in E.
    by apply dom_empty_inv_L.
  - right. unfold next_id. simpl.
    apply elem_of_dom, elem_of_elements. by apply max_list_elem_of.
Qed.

Lemma next_id_add_row x t : next_id (add_row x t) = S (next_id t).
Proof.
  unfold add_row.
  assert (next_id t < next_id (<[next_id t := x]> t)) as Hlt.
  { apply lookup_lt_next_id. rewrite lookup_insert_eq. eauto. }
  destruct (next_id_pred (<[next_id t := x]> t)) as [E|[y Hy]].
  - exfalso. eapply (insert_non_empty t). exact E.
  - rewrite lookup_insert in Hy. case_decide as Hd.
    + pose proof (next_id_pos (<[next_id t := x]> t)). lia.
    + assert (pred (next_id (<[next_id t := x]> t)) < next_id t); [|lia].
      apply lookup_lt_next_id. eauto.
Qed.

Lemma size_add_row x t : size (add_row x t) = S (size t).
Proof. apply map_size_insert_None, next_id_fresh. Qed.

Lemma lookup_add_row_new x t : add_row x t !! next_id t = Some x.
Proof. apply lookup_insert_eq. Qed.

Lemma lookup_add_row_old x t k y :
  t !! k = Some y → add_row x t !! k = Some y.
Proof.
  intros Hk. unfold add_row. rewrite lookup_insert_ne; [done|].
  intros <-. by rewrite next_id_fresh in Hk.
Qed.

Lemma add_row_inj x y t : add_row x t = add_row y t → x = y.
Proof.
  intros E. apply (f_equal (λ m, m !! next_id t)) in E.
  rewrite !lookup_add_row_new in E. congruence.
Qed.

Lemma add_row_ne x t : add_row x t ≠ t.
Proof.
  intros E. apply (f_equal (λ m, m !! next_id t)) in E.
  by rewrite lookup_add_row_new, next_id_fresh in E.
Qed.

Lemma first_where_list P (l : list (nat * A)) k x :
  foldr (λ kx acc, if P kx.2 then earlier kx acc else acc) None l
    = Some (k, x) →
  (k, x) ∈ l ∧ P x = true.
Proof.
  revert k x. induction l as [|[k' x'] l IH]; intros k x; simpl; [done|].
  destruct (P x') eqn:HP.
  - unfold earlier.
    destruct (foldr _ None l) as [[k'' x'']|] eqn:E; simpl.
    + case_decide; intros [= <- <-].
      * split; [left|done].
      * destruct (IH _ _ eq_refl). split; [by right|done].
    + intros [= <- <-]. split; [left|done].
  - intros E. destruct (IH _ _ E). split; [by right|done].
Qed.

Lemma first_where_list_None P (l : list (nat * A)) k x :
  foldr (λ kx acc, if P kx.2 then earlier kx acc else acc) None l = None →
  (k, x) ∈ l → P x = false.
Proof.
  induction l as [|[k' x'] l IH]; simpl; [by intros _ ?%elem_of_nil|].
  destruct (P x') eqn:HP.
  - unfold earlier. destruct (foldr _ None l) as [[??]|]; [|done].
    by case_decide.
  - intros E [[= -> ->]|Hin]%elem_of_cons; [done|]. by apply IH.
Qed.

Lemma first_where_Some P t k x :
  first_where P t = Some (k, x) → t !! k = Some x ∧ P x = true.
Proof.
  intros [Hin HP]%first_where_list. by apply elem_of_map_to_list in Hin.
Qed.

Lemma first_where_None P t k x :
  first_where P t = None → t !! k = Some x → P x = false.
Proof.
  intros E Hk. eapply first_where_list_None; [exact E|].
  by apply elem_of_map_to_list.
Qed.

Lemma first_where_is_Some P t k x :
  t !! k = Some x → P x = true → is_Some (first_where P t).
Proof.
  intros Hk HP. destruct (first_where P t) eqn:E; [eauto|].
  rewrite (first_where_None _ _ _ _ E Hk) in HP. done.
Qed.

Lemma lookup_delete_where P t k :
  delete_where P t !! k = 
    match t !! k with
    | Some x => if P x then None else Some x
    | None => None
    end.
Proof.
  unfold delete_where. rewrite map_lookup_filter.
  destruct (t !! k) as [x|]; simpl; [|done].
  by destruct (P x).
Qed.
End table_facts.

(** ** Running a handler *)

(** Unfold the handler and the session monad, as far as the data allows. *)
Ltac run :=
  cbv beta iota zeta delta
      [serve execute add_material add_rolls delete_material delete_roll
       update_roll add_customer edit_customer delete_customer add_sale
       edit_sale delete_sale log_activity delete_material_row
       delete_customer_row commit query modify respond raise utcnow
       mbind handler_bind mret handler_ret option_bind default from_option id
       with_materials with_material_rolls with_customers with_sales
       with_activity_log];
  cbn [stored pending outcomes clock now commit_ok
       materials material_rolls customers sales activity_log
       MaterialData.name MaterialData.type MaterialData.colour
       MaterialData.supplier RollsData.name RollsData.type
       RollsData.quantities CustomerData.name CustomerData.contact
       CustomerEdit.name CustomerEdit.contact SaleData.material_id
       SaleData.customer_id SaleData.quantity_sold SaleData.price
       SaleData.amount_due SaleEdit.quantity_sold SaleEdit.price
       fst snd].

(** What the next branch of the handler looks at. *)
Ltac scrutinee x :=
  lazymatch x with
  | context [match ?y with _ => _ end] => scrutinee y
  | _ => x
  end.

(** Take the branch a hypothesis decides, or else every branch. *)
Ltac branch :=
  match goal with
  | |- context [match ?x with _ => _ end] =>
      let y := scrutinee x in
      first [ match goal with H : y = _ |- _ => rewrite H end
            | destruct y eqn:? ]
  end.

Ltac paths := repeat (run; branch); run.

(** A path on which a commit fails, in an environment where none does. *)
Ltac absurd_outcome :=
  exfalso;
  repeat match goal with
         | H : Forall _ (_ :: _) |- _ => inversion_clear H
         end;
  congruence.

(** A path whose response is a failure, when the request succeeded. *)
Ltac failed_request :=
  match goal with
  | H : succeeded _ |- _ => exfalso; unfold succeeded in H; simpl in H; lia
  end.

Lemma durable_serve c env db :
  durable env →
  serve (execute c) env db = serve (execute c) (mkEnv (now env) []) db.
Proof.
  destruct env as [t oks]. unfold durable. cbn [commit_ok now]. intros Hd.
  destruct c; paths; first [reflexivity | absurd_outcome].
Qed.

Lemma durable_calm : durable calm.
Proof. constructor. Qed.

(** ** Recording a sale *)

(** C2. When the quantity sold exceeds the stock counter of the material,
    [add_sale] answers "Insufficient stock" (400) and the database is the
    one it found: no counter moves and no sale is stored. *)
Theorem add_sale_insufficient_stock env data db material :
  materials db !! SaleData.material_id data = Some material →
  (Material.total_quantity material <? SaleData.quantity_sold data)%float
    = true →
  serve (add_sale data) env db = (InsufficientStock, db).
Proof. intros Hm Hlt. by paths. Qed.

Lemma add_sale_insufficient_stock_witness :
  serve (add_sale (SaleData.mk 1 None 130 10 None)) calm shop
    = (InsufficientStock, shop).
Proof.
  apply (add_sale_insufficient_stock calm (SaleData.mk 1 None 130 10 None)
           shop cotton); reflexivity.
Defined.



(** ** Updating a sale *)



(** ** Materials and rolls *)

(** C4. After a successful [add_material], a second one with the same
    name, type and supplier answers "Material already exists" (400) and
    changes nothing; the store then holds exactly one material with that
    name, type and supplier: the one the first call created, under a new
    key, with [total_quantity] 0 and one ADD entry in the audit log. *)
Theorem add_material_twice env1 env2 first second db :
  MaterialData.name second = MaterialData.name first →
  MaterialData.type second = MaterialData.type first →
  MaterialData.supplier second = MaterialData.supplier first →
  let out1 := serve (add_material first) env1 db in
  let out2 := serve (add_material second) env2 out1.2 in
  succeeded out1.1 →
  out2.1 = DuplicateMaterial
  ∧ out2.2 = out1.2
  ∧ ∃ id material,
      out1.1 = message_with "Material added successfully!" "material_id" id 201
      ∧ materials db !! id = None
      ∧ materials out2.2 !! id = Some material
      ∧ (∀ id' material',
           materials out2.2 !! id' = Some material' →
           same_material (MaterialData.name first) (MaterialData.type first)
             (MaterialData.supplier first) material' = true →
           id' = id)
      ∧ same_material (MaterialData.name first) (MaterialData.type first)
          (MaterialData.supplier first) material = true
      ∧ Material.total_quantity material = 0%float
      ∧ activity_log out1.2
        = add_row (ActivityLog.mk "ADD" "materials" id
                     (MaterialData.json first) (now env1)) (activity_log db).
Proof.
  intros Hn Ht Hs out1 out2. subst out2 out1.
  destruct (serve (add_material first) env1 db) as [r1 db1] eqn:E1.
  cbn [fst snd]. intros Hok.
  set (new := Material.mk (MaterialData.name first) 0
                (MaterialData.type first) (MaterialData.colour first)
                (MaterialData.supplier first) 0).
  assert (first_where
            (same_material (MaterialData.name first) (MaterialData.type first)
               (MaterialData.supplier first)) (materials db) = None
          ∧ r1 = message_with "Material added successfully!" "material_id"
                   (next_id (materials db)) 201
          ∧ materials db1 = add_row new (materials db)
          ∧ activity_log db1
            = add_row (ActivityLog.mk "ADD" "materials"
                         (next_id (materials db)) (MaterialData.json first)
                         (now env1)) (activity_log db))
    as (Hfirst & -> & Hm1 & Hl1).
  { revert E1. paths; intros [= <- <-]; try failed_request; done. }
  assert (same_material (MaterialData.name first) (MaterialData.type first)
            (MaterialData.supplier first) new = true) as Hsame.
  { unfold same_material, new. cbn. by rewrite !bool_decide_eq_true_2. }
  assert (serve (add_material second) env2 db1 = (DuplicateMaterial, db1))
    as ->.
  { assert (is_Some (first_where
              (same_material (MaterialData.name second)
                 (MaterialData.type second) (MaterialData.supplier second))
              (materials db1))) as [[k1 m1] Hsecond].
    { rewrite Hn, Ht, Hs, Hm1.
      eapply first_where_is_Some; [apply lookup_add_row_new|done]. }
    by paths. }
  cbn [fst snd]. split; [done|]. split; [done|].
  exists (next_id (materials db)), new. rewrite Hm1.
  split_and!; try done.
  - apply next_id_fresh.
  - apply lookup_add_row_new.
  - intros id' m' Hl Hsm. unfold add_row in Hl. rewrite lookup_insert in Hl.
    case_decide; [done|].
    by rewrite (first_where_None _ _ _ _ Hfirst Hl) in Hsm.
Qed.

Lemma add_material_twice_witness :
  let out1 := serve (add_material silk) calm shop in
  (serve (add_material (MaterialData.mk "silk" "ensiz" None "Tex")) calm
     out1.2).1 = DuplicateMaterial.
Proof.
  refine (proj1 (add_material_twice calm calm silk
                   (MaterialData.mk "silk" "ensiz" None "Tex") shop
                   eq_refl eq_refl eq_refl _)).
  unfold succeeded. vm_compute. lia.
Defined.

(** Rolls saved in bulk take the next keys in order and leave the rows of
    the table alone. *)
Section bulk.
Context (material_id date_added : nat).
Implicit Types (qs : list float) (t : gmap nat MaterialRoll.t).

Lemma bulk_save_cons q qs t :
  bulk_save material_id date_added (q :: qs) t
  = bulk_save material_id date_added qs
      (add_row (MaterialRoll.mk material_id q date_added) t).
Proof. reflexivity. Qed.

Lemma bulk_save_size qs t :
  size (bulk_save material_id date_added qs t) = size t + length qs.
Proof.
  revert t. induction qs as [|q qs IH]; intros t.
  - simpl. lia.
  - rewrite bulk_save_cons, IH, size_add_row. simpl. lia.
Qed.

Lemma bulk_save_old qs t k r :
  t !! k = Some r → bulk_save material_id date_added qs t !! k = Some r.
Proof.
  revert t. induction qs as [|q qs IH]; intros t Hk; [done|].
  rewrite bulk_save_cons. by apply IH, lookup_add_row_old.
Qed.

Lemma bulk_save_new qs t i q :
  qs !! i = Some q →
  bulk_save material_id date_added qs t !! (next_id t + i)
  = Some (MaterialRoll.mk material_id q date_added).
Proof.
  revert t i. induction qs as [|q' qs IH]; intros t i Hi; [done|].
  rewrite bulk_save_cons. destruct i as [|i]; simpl in Hi.
  - injection Hi as ->. rewrite Nat.add_0_r.
    apply bulk_save_old, lookup_add_row_new.
  - replace (next_id t + S i) with (S (next_id t) + i) by lia.
    rewrite <- (next_id_add_row (MaterialRoll.mk material_id q' date_added)).
    by apply IH.
Qed.
End bulk.

Lemma bulk_save_lookup material_id date_added qs t k r :
  bulk_save material_id date_added qs t !! k = Some r →
  t !! k = Some r ∨ MaterialRoll.material_id r = material_id.
Proof.
  revert t. induction qs as [|q qs IH]; intros t; [by left|].
  rewrite bulk_save_cons. intros [Hk| ->]%IH; [|by right].
  unfold add_row in Hk. rewrite lookup_insert in Hk.
  case_decide; simplify_eq; [by right|by left].
Qed.

Lemma bulk_save_lookup_new material_id date_added qs t k r :
  bulk_save material_id date_added qs t !! k = Some r →
  t !! k = Some r
  ∨ ∃ q, q ∈ qs ∧ r = MaterialRoll.mk material_id q date_added.
Proof.
  revert t. induction qs as [|q qs IH]; intros t; [by left|].
  rewrite bulk_save_cons. intros [Hk|(q' & Hq & ->)]%IH.
  - unfold add_row in Hk. rewrite lookup_insert in Hk.
    case_decide; simplify_eq; [|by left].
    right. exists q. split; [left|done].
  - right. exists q'. split; [by right|done].
Qed.

(** The match of least key. *)
Lemma first_where_list_least {A} (P : A → bool) (l : list (nat * A)) k x :
  foldr (λ kx acc, if P kx.2 then earlier kx acc else acc) None l
    = Some (k, x) →
  ∀ k' x', (k', x') ∈ l → P x' = true → (k ≤ k')%nat.
Proof.
  revert k x. induction l as [|[j y] l IH]; intros k x; simpl; [done|].
  intros E k' x' [[= -> ->]|Hin]%elem_of_cons HP.
  - rewrite HP in E. unfold earlier in E.
    destruct (foldr _ None l) as [[k'' x'']|]; simpl in E.
    + case_decide; simplify_eq; lia.
    + by simplify_eq.
  - destruct (P y) eqn:HPy; [|by eapply IH].
    unfold earlier in E.
    destruct (foldr _ None l) as [[k'' x'']|] eqn:E'; simpl in E.
    + specialize (IH _ _ eq_refl _ _ Hin HP).
      case_decide; simplify_eq; lia.
    + by rewrite (first_where_list_None P l k' x' E' Hin) in HP.
Qed.

Lemma first_where_least {A} (P : A → bool) (t : gmap nat A) k x k' x' :
  first_where P t = Some (k, x) → t !! k' = Some x' → P x' = true →
  (k ≤ k')%nat.
Proof.
  intros E Hk HP. eapply first_where_list_least; [exact E| |exact HP].
  by apply elem_of_map_to_list.
Qed.

(** C7, as the code has it.  [add_rolls] succeeds on a stored material
    once its commits are written.  A successful call uses the stored
    material of least key among those with the name and type asked for; it
    stores one roll per quantity, in order under the next keys of the
    table, each with the key of that material; it leaves the other rolls,
    every material (so every [total_quantity]), the customers and the
    sales as they were, and appends one ADD entry that lists the
    quantities. *)
Theorem add_rolls_frame env data db :
  let out := serve (add_rolls data) env db in
  let quantities := RollsData.quantities data in
  (∀ k material,
     materials db !! k = Some material →
     named (RollsData.name data) (RollsData.type data) material = true →
     durable env → succeeded out.1)
  ∧ (succeeded out.1 →
     ∃ material_id material,
       materials db !! material_id = Some material
       ∧ named (RollsData.name data) (RollsData.type data) material = true
       ∧ (∀ k m,
            materials db !! k = Some m →
            named (RollsData.name data) (RollsData.type data) m = true →
            (material_id ≤ k)%nat)
       ∧ materials out.2 = materials db
       ∧ customers out.2 = customers db
       ∧ sales out.2 = sales db
       ∧ size (material_rolls out.2)
         = size (material_rolls db) + length quantities
       ∧ (∀ i q,
            quantities !! i = Some q →
            material_rolls out.2 !! (next_id (material_rolls db) + i)
            = Some (MaterialRoll.mk material_id q (now env)))
       ∧ (∀ k roll,
            material_rolls db !! k = Some roll →
            material_rolls out.2 !! k = Some roll)
       ∧ activity_log out.2
         = add_row (ActivityLog.mk "ADD" "material_rolls" material_id
                      (JObj [("added_rolls", JList (JNum <$> quantities))])
                      (now env)) (activity_log db)).
Proof.
  intros out quantities. subst out quantities. split.
  - intros k material Hk Hn Hd.
    pose proof (durable_serve (AddRolls data) env db Hd) as E.
    cbn [execute] in E. rewrite E. clear E.
    destruct (first_where_is_Some _ _ _ _ Hk Hn) as [[k' m'] Hf].
    paths. unfold succeeded. simpl. lia.
  - paths; intros Hok; try failed_request.
    all: match goal with
         | H : first_where _ _ = Some _ |- _ =>
             pose proof (λ k' x', first_where_least _ _ _ _ k' x' H)
               as Hleast;
             apply first_where_Some in H; destruct H
         end.
    all: eexists _, _; split_and!; try done.
    all: first [ apply bulk_save_size
               | by apply bulk_save_new
               | by apply bulk_save_old
               | intros k m Hk Hn; by eapply Hleast ].
Qed.

Lemma add_rolls_frame_witness :
  let out := serve (add_rolls (RollsData.mk "cotton" "enli" [25]%float)) calm
               twins in
  succeeded out.1
  ∧ material_rolls out.2 !! 1 = Some (MaterialRoll.mk 1 25 7)
  ∧ stock out.2 1 = Some 100%float
  ∧ size (material_rolls out.2) = 1.
Proof.
  pose proof (add_rolls_frame calm (RollsData.mk "cotton" "enli" [25]%float)
                twins) as [Hlive Hdone].
  pose proof (Hlive 1 cotton eq_refl eq_refl durable_calm) as Hok.
  destruct (Hdone Hok)
    as (k & m & Hk & _ & Hleast & Hm & _ & _ & Hsize & Hnew & _).
  pose proof (Hleast 1 cotton eq_refl eq_refl) as Hle.
  destruct k as [|[|k]]; [discriminate Hk| |lia].
  split; [exact Hok|]. split; [exact (Hnew 0 25%float eq_refl)|]. split.
  - unfold stock. rewrite Hm. reflexivity.
  - rewrite Hsize. reflexivity.
Defined.

(** C7, as it is stated, fails: [twins] stores cotton of type enli from two
    suppliers, and the roll that [add_rolls] stores for that name and type
    refers to material 1, not to material 2. *)
Lemma add_rolls_other_supplier :
  ¬ (∀ env data db k material,
       materials db !! k = Some material →
       named (RollsData.name data) (RollsData.type data) material = true →
       let out := serve (add_rolls data) env db in
       succeeded out.1 →
       ∀ key roll,
         material_rolls db !! key = None →
         material_rolls out.2 !! key = Some roll →
         MaterialRoll.material_id roll = k).
Proof.
  intros H.
  specialize (H calm (RollsData.mk "cotton" "enli" [25]%float) twins 2
                (Material.mk "cotton" 0 "enli" None "Other" 0)
                eq_refl eq_refl).
  simpl in H.
  assert (succeeded (serve (add_rolls (RollsData.mk "cotton" "enli"
                                         [25]%float)) calm twins).1) as Hok.
  { unfold succeeded. vm_compute. lia. }
  specialize (H Hok 1 (MaterialRoll.mk 1 25 7) eq_refl eq_refl).
  discriminate H.
Qed.

(** Deleting a material.  [delete_material] of a key that is not stored
    answers 404 and changes nothing.  For a stored material that no sale
    refers to, once the commits are written, it removes the material and
    every roll of the material, so that no roll refers to it afterwards,
    keeps the other rolls, and appends one DELETE entry whose payload is
    the name of the material. *)
Theorem delete_material_cascade env material_id db :
  let out := serve (delete_material material_id) env db in
  (materials db !! material_id = None → NotFound out.1 ∧ out.2 = db)
  ∧ (∀ material,
       materials db !! material_id = Some material →
       (∀ k sale, sales db !! k = Some sale →
                  Sale.material_id sale ≠ material_id) →
       durable env →
       out.1 = message "Material and associated rolls deleted successfully" 200
       ∧ materials out.2 = delete material_id (materials db)
       ∧ (∀ k roll, material_rolls out.2 !! k = Some roll →
                    MaterialRoll.material_id roll ≠ material_id)
       ∧ (∀ k roll, material_rolls db !! k = Some roll →
                    MaterialRoll.material_id roll ≠ material_id →
                    material_rolls out.2 !! k = Some roll)
       ∧ activity_log out.2
         = add_row (ActivityLog.mk "DELETE" "materials" material_id
                      (JObj [("deleted_material",
                              JStr (Material.name material))])
                      (now env)) (activity_log db)).
Proof.
  intros out. subst out. split.
  - intros Hm. by paths.
  - intros material Hm Hfree Hd.
    pose proof (durable_serve (DeleteMaterial material_id) env db Hd) as E.
    cbn [execute] in E. rewrite E. clear E.
    destruct (first_where (sold_from material_id) (sales db))
      as [[k sale]|] eqn:Hf.
    { apply first_where_Some in Hf as [Hk Hs]. exfalso.
      apply (Hfree _ _ Hk). unfold sold_from in Hs.
      by apply bool_decide_eq_true in Hs. }
    paths. split_and!; try done.
    + intros k roll. rewrite lookup_delete_where.
      destruct (material_rolls db !! k) as [r|]; [|done].
      unfold of_material. case_bool_decide; [done|]. by intros [= ->].
    + intros k roll Hk Hne. rewrite lookup_delete_where, Hk.
      unfold of_material. by rewrite bool_decide_eq_false_2.
Qed.


Lemma delete_material_cascade_witness :
  let out := serve (delete_material 1) calm stocked in
  materials out.2 = delete 1 (materials stocked)
  ∧ material_rolls out.2 !! 1 = None
  ∧ NotFound (serve (delete_material 5) calm stocked).1.
Proof.
  destruct (proj2 (delete_material_cascade calm 1 stocked) cotton eq_refl)
    as (_ & Hm & Hgone & _); [|exact durable_calm|].
  { intros k sale Hk. vm_compute in Hk. discriminate. }
  split; [exact Hm|]. split.
  - destruct (material_rolls (serve (delete_material 1) calm stocked).2 !! 1)
      as [roll|] eqn:E; [|reflexivity].
    pose proof (Hgone 1 roll E) as Hne. vm_compute in E. discriminate E.
  - exact (proj1 (proj1 (delete_material_cascade calm 5 stocked) eq_refl)).
Defined.

(** C8.  Every stored material should be deleted together with its rolls.
    In [stocked_sold] material 1 is stored with two rolls and a sale
    refers to it: [delete_material] ends in a server error there, though
    every commit would be written, and the material, its rolls and the
    audit log are what they were. *)
Theorem delete_material_with_sales :
  is_Some (materials stocked_sold !! 1)
  ∧ size (material_rolls stocked_sold) = 2
  ∧ size (sales stocked_sold) = 1
  ∧ serve (delete_material 1) calm stocked_sold
    = (internal_server_error, stocked_sold).
Proof.
  split_and!.
  - by eexists.
  - reflexivity.
  - reflexivity.
  - reflexivity.
Qed.

(** ** Customers *)

Ltac lookups :=
  repeat match goal with
         | H : context [<[_ := _]> _ !! _] |- _ =>
             rewrite lookup_insert in H; case_decide; simplify_eq
         | H : context [delete _ _ !! _] |- _ =>
             rewrite lookup_delete in H; case_decide; simplify_eq
         | H : context [add_row _ _ !! _] |- _ =>
             unfold add_row in H
         end.

(** C9. Whatever the request, a customer who appears was added by
    [add_customer] and owes 0; a customer who stays owes what they owed,
    unless the request is an [add_sale] that names them and carries an
    amount due, which is then added; [edit_customer] keeps the debt and the
    location; and a successful [add_sale] that names a stored customer and
    carries an amount due does add it. *)
Theorem debt_only_by_sales c env db k :
  let out := serve (execute c) env db in
  (∀ customer',
     customers db !! k = None → customers out.2 !! k = Some customer' →
     (∃ data, c = AddCustomer data) ∧ Customer.debt customer' = 0%float)
  ∧ (∀ customer customer',
       customers db !! k = Some customer →
       customers out.2 !! k = Some customer' →
       Customer.debt customer' = Customer.debt customer
       ∨ ∃ data amount_due,
           c = AddSale data
           ∧ SaleData.customer_id data = Some k
           ∧ SaleData.amount_due data = Some amount_due
           ∧ Customer.debt customer'
             = (Customer.debt customer + amount_due)%float)
  ∧ (∀ id data customer customer',
       c = EditCustomer id data →
       customers db !! k = Some customer →
       customers out.2 !! k = Some customer' →
       Customer.debt customer' = Customer.debt customer
       ∧ Customer.location customer' = Customer.location customer)
  ∧ (∀ data customer amount_due,
       c = AddSale data →
       SaleData.customer_id data = Some k →
       SaleData.amount_due data = Some amount_due →
       customers db !! k = Some customer →
       succeeded out.1 →
       customers out.2 !! k
       = Some (Customer.with_debt (Customer.debt customer + amount_due)
                 customer)).
Proof.
  intros out. subst out. split_and!.
  - destruct c; paths; intros c' H0 H1; lookups; try congruence.
    all: eauto.
  - destruct c; paths; intros c0 c' H0 H1; lookups.
    all: try by (left; congruence).
    all: try by rewrite next_id_fresh in H0.
    all: try by left.
    all: by (right; eexists _, _; split_and!).
  - intros id data c0 c' ->. paths; intros H0 H1; lookups.
    all: by simplify_eq.
  - intros data c0 due -> Hc Hd Hk. destruct data as [mid cid q p odue].
    simpl in Hc, Hd. subst.
    paths; intros Hok; try failed_request; try congruence.
    all: rewrite lookup_insert_eq; congruence.
Qed.

Lemma debt_only_by_sales_witness :
  customers
    (serve (add_sale (SaleData.mk 1 (Some 1) 30 10 (Some 300%float))) calm
       shop).2 !! 1
  = Some (Customer.with_debt (Customer.debt amina + 300) amina).
Proof.
  refine (proj2 (proj2 (proj2 (debt_only_by_sales
            (AddSale (SaleData.mk 1 (Some 1) 30 10 (Some 300%float)))
            calm shop 1))) _ amina 300%float eq_refl eq_refl eq_refl eq_refl _).
  unfold succeeded. vm_compute. lia.
Defined.

(** ** The audit log *)

(** C5, as the code has it.  A request that succeeds appends exactly one
    entry to the audit log, and the entry names the table and the key of
    the row the request created, changed or deleted; for [add_rolls] it
    names the table of the rolls with the key of the material. *)
Theorem one_audit_entry c env db :
  let out := serve (execute c) env db in
  succeeded out.1 →
  ∃ e,
    activity_log out.2 = add_row e (activity_log db)
    ∧ size (activity_log out.2) = S (size (activity_log db))
    ∧ audits c db out.2 e.
Proof.
  intros out. subst out.
  destruct c; paths; intros Hok; try failed_request.
  all: eexists; split; [reflexivity|]; split; [apply size_add_row|].
  all: cbn [audits ActivityLog.table_name ActivityLog.record_id materials
            material_rolls customers sales].
  all: repeat match goal with
         | H : first_where _ _ = Some _ |- _ =>
             pose proof (λ k' x', first_where_least _ _ _ _ k' x' H)
               as Hleast;
             apply first_where_Some in H; destruct H
         end.
  all: split_and!; try done; eauto using next_id_fresh.
  all: try (rewrite ?lookup_add_row_new, ?lookup_insert_eq,
              ?lookup_delete_eq; eauto; fail).
  all: try (intros k m Hk Hn; by eapply Hleast).
  all: intros k roll Hk [Hk'|(q & _ & ->)]%bulk_save_lookup_new;
    [congruence|done].
Qed.


Lemma one_audit_entry_witness :
  let out := serve (add_rolls (RollsData.mk "cotton" "enli" [25]%float)) calm
               twins in
  ∃ e, activity_log out.2 = add_row e (activity_log twins)
       ∧ ActivityLog.table_name e = "material_rolls"
       ∧ ActivityLog.record_id e = 1.
Proof.
  destruct (one_audit_entry
              (AddRolls (RollsData.mk "cotton" "enli" [25]%float)) calm twins)
    as (e & He & _ & Ht & (m & Hm & _) & Hleast & _).
  - unfold succeeded. vm_compute. lia.
  - exists e. split; [exact He|]. split; [exact Ht|].
    pose proof (Hleast 1 cotton eq_refl eq_refl) as Hle.
    destruct (ActivityLog.record_id e) as [|[|k]];
      [discriminate Hm|reflexivity|lia].
Defined.

(** C5, as it is stated, fails for [add_rolls]: the entry of a call that
    adds roll 3 names row 1 of the rolls, which the call did not touch. *)
Lemma add_rolls_audit_names_material :
  ¬ (∀ c env db,
       let out := serve (execute c) env db in
       succeeded out.1 →
       ∃ e,
         activity_log out.2 = add_row e (activity_log db)
         ∧ row_changed db out.2 (ActivityLog.table_name e)
             (ActivityLog.record_id e)).
Proof.
  intros H.
  destruct (H (AddRolls (RollsData.mk "cotton" "enli" [25]%float)) calm
              stocked) as (e & He & Hrow).
  { unfold succeeded. vm_compute. lia. }
  pose proof (lookup_add_row_new e (activity_log stocked)) as Hnew.
  rewrite <- He in Hnew. vm_compute in Hnew. injection Hnew as <-.
  cbn [ActivityLog.table_name ActivityLog.record_id] in Hrow.
  destruct Hrow as [[? _]|[[_ Hne]|[[? _]|[? _]]]]; try discriminate.
  apply Hne. reflexivity.
Qed.

(** C3, as the code has it.  The changes of a request are committed
    together, and its audit entry in a second commit.  A request that
    succeeds has left both.  A request that fails has left the audit log
    as it was, and either the whole database as it was or, when it is the
    second commit that fails, every change of the request without the
    audit entry. *)
Theorem two_commits c env db :
  let out := serve (execute c) env db in
  let full := (serve (execute c) (mkEnv (now env) []) db).2 in
  (succeeded out.1 →
     out.2 = full ∧ ∃ e, activity_log full = add_row e (activity_log db))
  ∧ (¬ succeeded out.1 →
       activity_log out.2 = activity_log db
       ∧ (out.2 = db
          ∨ out.1 = internal_server_error
            ∧ (∃ ok rest, commit_ok env = ok :: false :: rest)
            ∧ out.2 = with_activity_log (λ _, activity_log db) full)).
Proof.
  intros out full. subst out full. split.
  - destruct c; paths; intros Hok; try failed_request.
    all: by eauto.
  - destruct c; paths; intros Hko.
    all: try by (exfalso; apply Hko; unfold succeeded; simpl; lia).
    all: split; [done|].
    all: try by left.
    all: right; split_and!; [done|by eauto|done].
Qed.


Lemma two_commits_witness :
  let out := serve (add_sale (SaleData.mk 1 None 30 10 None)) outage shop in
  activity_log out.2 = activity_log shop.
Proof.
  refine (proj1 (proj2 (two_commits (AddSale (SaleData.mk 1 None 30 10 None))
                          outage shop) _)).
  unfold succeeded. vm_compute. lia.
Defined.

(** C3, as it is stated, fails: when the commit of the audit entry fails,
    the request fails and the sale it recorded stays. *)
Lemma audit_failure_keeps_sale :
  ¬ (∀ c env db,
       let out := serve (execute c) env db in
       ¬ succeeded out.1 → out.2 = db).
Proof.
  intros H.
  specialize (H (AddSale (SaleData.mk 1 None 30 10 None)) outage shop).
  simpl in H.
  assert (stock (serve (add_sale (SaleData.mk 1 None 30 10 None)) outage
                   shop).2 1 = stock shop 1) as E.
  { rewrite H; [done|]. unfold succeeded. vm_compute. lia. }
  apply (f_equal (λ o, match o with
                       | Some x => (x <? 100)%float
                       | None => false
                       end)) in E.
  vm_compute in E. discriminate.
Qed.

(** ** The life of a sale *)

(** What a successful request on a sale has done. *)
Lemma add_sale_succeeded env data db :
  let out := serve (add_sale data) env db in
  succeeded out.1 →
  ∃ material,
    materials db !! SaleData.material_id data = Some material
    ∧ materials out.2
      = <[SaleData.material_id data :=
            Material.with_total_quantity
              (Material.total_quantity material
               - SaleData.quantity_sold data)%float material]> (materials db)
    ∧ sales out.2
      = add_row (Sale.mk (SaleData.material_id data)
                   (SaleData.customer_id data) (SaleData.quantity_sold data)
                   (SaleData.price data) (now env)) (sales db).
Proof.
  intros out. subst out. paths; intros Hok; try failed_request.
  all: by eexists.
Qed.

Lemma edit_sale_succeeded env sale_id data db :
  let out := serve (edit_sale sale_id data) env db in
  succeeded out.1 →
  ∃ sale material,
    sales db !! sale_id = Some sale
    ∧ materials db !! Sale.material_id sale = Some material
    ∧ materials out.2
      = <[Sale.material_id sale :=
            Material.with_total_quantity
              (Material.total_quantity material + Sale.quantity_sold sale
               - default (Sale.quantity_sold sale)
                   (SaleEdit.quantity_sold data))%float material]>
          (materials db)
    ∧ sales out.2
      = <[sale_id :=
            Sale.with_amounts
              (default (Sale.quantity_sold sale) (SaleEdit.quantity_sold data))
              (default (Sale.price sale) (SaleEdit.price data)) sale]>
          (sales db).
Proof.
  intros out. subst out. paths; intros Hok; try failed_request.
  all: by eexists _, _.
Qed.

Lemma delete_sale_succeeded env sale_id db :
  let out := serve (delete_sale sale_id) env db in
  succeeded out.1 →
  ∃ sale material,
    sales db !! sale_id = Some sale
    ∧ materials db !! Sale.material_id sale = Some material
    ∧ materials out.2
      = <[Sale.material_id sale :=
            Material.with_total_quantity
              (Material.total_quantity material + Sale.quantity_sold sale)%float
              material]> (materials db)
    ∧ sales out.2 = delete sale_id (sales db).
Proof.
  intros out. subst out. paths; intros Hok; try failed_request.
  all: by eexists _, _.
Qed.

Section lifecycle.
Context (t : float) (material_id sale_id : nat).

Lemma applied_edit env data q db :
  let out := serve (edit_sale sale_id data) env db in
  applied t material_id sale_id q db → restores t q → succeeded out.1 →
  applied t material_id sale_id
    (default q (SaleEdit.quantity_sold data)) out.2.
Proof.
  intros out (sale & material & Hs & Hmid & Hq & Hm & Ht) Hr Hok.
  destruct (edit_sale_succeeded env sale_id data db Hok)
    as (sale' & material' & Hs' & Hm' & Hms & Hss).
  fold out in Hms, Hss. rewrite Hs in Hs'. injection Hs' as <-.
  rewrite Hmid in Hm', Hms. rewrite Hm in Hm'. injection Hm' as <-.
  eexists _, _. rewrite Hms, Hss, !lookup_insert_eq.
  split_and!; try done.
  + simpl. by rewrite Hq.
  + simpl. unfold restores in Hr. by rewrite Ht, Hq, Hr.
Qed.

Lemma applied_delete env q db :
  let out := serve (delete_sale sale_id) env db in
  applied t material_id sale_id q db → restores t q → succeeded out.1 →
  stock out.2 material_id = Some t.
Proof.
  intros out (sale & material & Hs & Hmid & Hq & Hm & Ht) Hr Hok.
  destruct (delete_sale_succeeded env sale_id db Hok)
    as (sale' & material' & Hs' & Hm' & Hms & Hss).
  fold out in Hms, Hss. rewrite Hs in Hs'. injection Hs' as <-.
  rewrite Hmid in Hm', Hms. rewrite Hm in Hm'. injection Hm' as <-.
  unfold stock. rewrite Hms, lookup_insert_eq. simpl.
  unfold restores in Hr. by rewrite Ht, Hq, Hr.
Qed.

Lemma applied_edits env' edits q db :
  let out :=
    serve_all (map (λ e, (e.1, EditSale sale_id e.2)) edits
               ++ [(env', DeleteSale sale_id)]) db in
  applied t material_id sale_id q db → restores t q →
  Forall (restores t) (omap (λ e, SaleEdit.quantity_sold e.2) edits) →
  Forall succeeded out.1 →
  stock out.2 material_id = Some t.
Proof.
  revert q db. induction edits as [|[env data] edits IH]; intros q db.
  - simpl. destruct (serve (delete_sale sale_id) env' db) as [r db'] eqn:E.
    simpl. intros Ha Hr _ Hok. apply Forall_cons in Hok as [Hok _].
    pose proof (applied_delete env' q db Ha Hr) as H.
    rewrite E in H. by apply H.
  - simpl.
    destruct (serve (edit_sale sale_id data) env db) as [r db'] eqn:E.
    destruct (serve_all _ db') as [rs db''] eqn:E'. simpl.
    intros Ha Hr Hrs Hok. apply Forall_cons in Hok as [Hok Hoks].
    pose proof (applied_edit env data q db Ha Hr) as H.
    rewrite E in H. specialize (H Hok). simpl in H.
    specialize (IH (default q (SaleEdit.quantity_sold data)) db').
    rewrite E' in IH. simpl in IH. apply IH; try done.
    + destruct (SaleEdit.quantity_sold data) as [q'|]; simpl in *; [|done].
      by apply Forall_cons in Hrs as [? _].
    + destruct (SaleEdit.quantity_sold data) as [q'|]; simpl in *; [|done].
      by apply Forall_cons in Hrs as [_ ?].
Qed.
End lifecycle.

(** C1, as the code has it.  When a sale is recorded, updated any number
    of times and deleted, every request succeeding, the stock counter of
    its material ends where it started, provided that float arithmetic
    restores the starting stock from each quantity the sale held. *)
Theorem sale_lifecycle_stock_neutral env data edits env' db t :
  let out := lifecycle env data edits env' db in
  stock db (SaleData.material_id data) = Some t →
  Forall (restores t) (sale_quantities data edits) →
  Forall succeeded out.1 →
  stock out.2 (SaleData.material_id data) = Some t.
Proof.
  intros out Ht Hr Hok. subst out. unfold lifecycle in *. simpl in *.
  destruct (serve (add_sale data) env db) as [r db1] eqn:E.
  destruct (serve_all _ db1) as [rs db2] eqn:E'. simpl in *.
  apply Forall_cons in Hok as [Hok Hoks].
  apply Forall_cons in Hr as [Hr Hrs].
  pose proof (add_sale_succeeded env data db) as H. rewrite E in H.
  destruct (H Hok) as (material & Hm & Hms & Hss). simpl in *.
  pose proof (applied_edits t (SaleData.material_id data) (next_id (sales db))
                env' edits (SaleData.quantity_sold data) db1) as H'.
  rewrite E' in H'. simpl in H'. apply H'; try done.
  unfold stock in Ht. rewrite Hm in Ht. simpl in Ht. injection Ht as Ht.
  eexists _, _. rewrite Hms, Hss, lookup_add_row_new, lookup_insert_eq.
  split_and!; try done. simpl. by rewrite Ht.
Qed.

(** The scenario of the specification: stock 100, a sale of 30, updated
    to 50, then deleted. *)
Lemma sale_lifecycle_stock_neutral_witness :
  stock (lifecycle calm (SaleData.mk 1 None 30 10 None)
           [(calm, SaleEdit.mk (Some 50%float) None)] calm shop).2 1
  = Some 100%float.
Proof.
  apply (sale_lifecycle_stock_neutral calm (SaleData.mk 1 None 30 10 None)
           [(calm, SaleEdit.mk (Some 50%float) None)] calm shop 100%float).
  - reflexivity.
  - repeat constructor.
  - vm_compute. repeat (constructor; [lia|]). constructor.
Defined.

(** C1, as it is stated, fails: after 0.2 is sold from a stock of 0.9 and
    the sale is deleted, the stock is 0.8999999999999999. *)
Lemma sale_lifecycle_rounds :
  ¬ (∀ env data edits env' db t,
       let out := lifecycle env data edits env' db in
       stock db (SaleData.material_id data) = Some t →
       Forall succeeded out.1 →
       stock out.2 (SaleData.material_id data) = Some t).
Proof.
  intros H.
  specialize (H calm (SaleData.mk 1 None 0.2 10 None) [] calm scales
                0.9%float eq_refl).
  simpl in H.
  assert (Forall succeeded
            (lifecycle calm (SaleData.mk 1 None 0.2 10 None) [] calm
               scales).1) as Hok.
  { vm_compute. repeat (constructor; [lia|]). constructor. }
  apply H in Hok.
  apply (f_equal (λ o, match o with
                       | Some x => (x <? 0.9)%float
                       | None => false
                       end)) in Hok.
  vm_compute in Hok. discriminate.
Qed.

(** * The rest of the ledger *)

(** ** Every route at once *)

(** X1. A request that is answered 400 or 404 has changed nothing. *)
Theorem client_errors_change_nothing c env db :
  let out := serve (execute c) env db in
  status out.1 = 400 ∨ status out.1 = 404 → out.2 = db.
Proof.
  intros out. subst out.
  destruct c; paths; intros [H|H]; simpl in H; try discriminate H; done.
Qed.

Lemma client_errors_change_nothing_witness :
  (serve (execute (DeleteRoll 9)) calm shop).2 = shop.
Proof.
  apply (client_errors_change_nothing (DeleteRoll 9) calm shop).
  right. reflexivity.
Defined.

Lemma audit_entries_stay c env db k e :
  activity_log db !! k = Some e →
  activity_log (serve (execute c) env db).2 !! k = Some e.
Proof.
  intros Hk. destruct c; paths; try done.
  all: by apply lookup_add_row_old.
Qed.

Lemma serve_all_cons env c requests db :
  serve_all ((env, c) :: requests) db
  = let out := serve (execute c) env db in
    let rest := serve_all requests out.2 in
    (out.1 :: rest.1, rest.2).
Proof.
  cbn [serve_all]. destruct (serve (execute c) env db) as [r db1].
  cbn [fst snd]. destruct (serve_all requests db1). reflexivity.
Qed.

(** X2. No run of requests changes or removes an entry of the audit log. *)
Theorem audit_log_append_only requests db k e :
  activity_log db !! k = Some e →
  activity_log (serve_all requests db).2 !! k = Some e.
Proof.
  revert db. induction requests as [|[env c] requests IH]; intros db Hk.
  - done.
  - rewrite serve_all_cons. simpl. by apply IH, audit_entries_stay.
Qed.


Lemma audit_log_append_only_witness :
  activity_log
    (serve_all [(calm, DeleteSale 1); (calm, DeleteCustomer 1)] sold).2 !! 1
  = activity_log sold !! 1.
Proof.
  destruct (activity_log sold !! 1) as [e|] eqn:E; [|discriminate E].
  apply (audit_log_append_only
           [(calm, DeleteSale 1); (calm, DeleteCustomer 1)] sold 1 e E).
Defined.

(** Lookups in the tables a request leaves. *)
Lemma is_Some_add_row {A} (x : A) (t : gmap nat A) k :
  is_Some (t !! k) → is_Some (add_row x t !! k).
Proof. intros [y Hy]. exists y. by apply lookup_add_row_old. Qed.

Lemma is_Some_insert {A} (x : A) (t : gmap nat A) j k :
  is_Some (t !! k) → is_Some (<[j := x]> t !! k).
Proof. intros Hk. apply lookup_insert_is_Some'. by right. Qed.

Ltac table_hyps :=
  repeat match goal with
         | H : context [delete_where _ _ !! _] |- _ =>
             rewrite lookup_delete_where in H
         | H : context [(_ <$> _) !! _] |- _ => rewrite lookup_fmap in H
         | H : bulk_save _ _ _ _ !! _ = Some _ |- _ =>
             apply bulk_save_lookup in H; destruct H
         | H : first_where _ _ = Some _ |- _ =>
             apply first_where_Some in H; destruct H
         | H : _ <$> ?o = Some _ |- _ =>
             destruct o eqn:?; simpl in H; simplify_eq
         | H : match ?o with _ => _ end = Some _ |- _ =>
             destruct o eqn:?; simpl in H; simplify_eq
         | H : context [<[_ := _]> _ !! _] |- _ =>
             rewrite lookup_insert in H; case_decide; simplify_eq
         | H : context [delete _ _ !! _] |- _ =>
             rewrite lookup_delete in H; case_decide; simplify_eq
         | H : context [add_row _ _ !! _] |- _ => unfold add_row in H
         end.

Lemma references_kept_step c env db :
  references_kept db → references_kept (serve (execute c) env db).2.
Proof.
  intros [Hrolls Hsales]. destruct c; paths; try (by split).
  all: split; cbn [materials material_rolls sales]; intros k x Hk.
  all: table_hyps; simpl.
  all: eauto using is_Some_add_row, is_Some_insert.
  all: try by (unfold release_sale; case_bool_decide; simpl; eauto).
  all: try by (match goal with H : _ = _ |- _ => rewrite H end; eauto).
  all: rewrite lookup_delete_ne; [eauto|]; intros E.
  all: try (unfold of_material in *;
            by rewrite bool_decide_eq_true_2 in * by done).
  all: match goal with
       | Hn : first_where _ _ = None, Hk : sales _ !! _ = Some _ |- _ =>
           pose proof (first_where_None _ _ _ _ Hn Hk) as Hf
       end.
  all: unfold sold_from in Hf; by rewrite bool_decide_eq_true_2 in Hf.
Qed.

(** X3. If every roll and every sale refers to a stored material, they
    still do after any run of requests. *)
Theorem references_always_kept requests db :
  references_kept db → references_kept (serve_all requests db).2.
Proof.
  revert db. induction requests as [|[env c] requests IH]; intros db Hdb.
  - done.
  - rewrite serve_all_cons. simpl. by apply IH, references_kept_step.
Qed.


Lemma references_kept_shop : references_kept shop.
Proof.
  split; intros k x Hk; unfold shop in Hk; cbn [material_rolls sales] in Hk.
  all: by rewrite lookup_empty in Hk.
Qed.

Lemma references_always_kept_witness :
  references_kept
    (serve_all [(calm, AddSale (SaleData.mk 1 None 30 10 None));
                (calm, DeleteMaterial 1)] shop).2.
Proof. apply references_always_kept, references_kept_shop. Defined.



(** X5. No request changes the name, type, colour, supplier or the
    [quantity] column of a material: of its fields only [total_quantity]
    can move. *)
Theorem material_identity_fixed c env db k m m' :
  materials db !! k = Some m →
  materials (serve (execute c) env db).2 !! k = Some m' →
  Material.name m' = Material.name m
  ∧ Material.quantity m' = Material.quantity m
  ∧ Material.type m' = Material.type m
  ∧ Material.colour m' = Material.colour m
  ∧ Material.supplier m' = Material.supplier m.
Proof.
  intros Hm. destruct c; paths; intros Hm'; table_hyps.
  all: try by simplify_eq.
  all: by rewrite next_id_fresh in Hm.
Qed.

Lemma material_identity_fixed_witness :
  Material.name (Material.with_total_quantity 70 cotton) = "cotton"
  ∧ Material.quantity (Material.with_total_quantity 70 cotton) = 0%float.
Proof.
  destruct (material_identity_fixed
              (AddSale (SaleData.mk 1 None 30 10 None)) calm shop 1 cotton
              (Material.with_total_quantity 70 cotton) eq_refl eq_refl)
    as (Hn & Hq & _).
  split; [exact Hn|exact Hq].
Defined.

Lemma same_material_true name type supplier m :
  same_material name type supplier m = true ↔
  Material.name m = name ∧ Material.type m = type
  ∧ Material.supplier m = supplier.
Proof.
  unfold same_material. rewrite !andb_true_iff, !bool_decide_eq_true.
  tauto.
Qed.

Lemma materials_unique_step c env db :
  materials_unique db → materials_unique (serve (execute c) env db).2.
Proof.
  intros Hu. destruct c; paths; try done.
  all: intros k k' m m' Hk Hk' Hn Ht Hs; cbn [materials] in *.
  all: table_hyps; try done; simpl in *.
  all: try by eapply Hu.
  all: exfalso.
  all: match goal with
       | Hn : first_where _ _ = None, Hk : materials _ !! _ = Some _ |- _ =>
           pose proof (first_where_None _ _ _ _ Hn Hk) as Hf
       end.
  all: apply not_true_iff_false in Hf; apply Hf, same_material_true.
  all: by split_and!.
Qed.

(** X6. If no two materials have the same name, type and supplier, none
    have after any run of requests. *)
Theorem materials_always_unique requests db :
  materials_unique db → materials_unique (serve_all requests db).2.
Proof.
  revert db. induction requests as [|[env c] requests IH]; intros db Hdb.
  - done.
  - rewrite serve_all_cons. simpl. by apply IH, materials_unique_step.
Qed.


Lemma materials_unique_shop : materials_unique shop.
Proof.
  unfold materials_unique, shop. cbn [materials].
  intros k k' m m' [<- _]%lookup_singleton_Some [<- _]%lookup_singleton_Some.
  done.
Qed.

Lemma materials_always_unique_witness :
  materials_unique
    (serve_all [(calm, AddMaterial silk); (calm, AddMaterial silk)] shop).2.
Proof. apply materials_always_unique, materials_unique_shop. Defined.

(** X7. Over all routes: a material that appears was added with stock 0;
    the stock of a material that stays moves only when a sale of it is
    recorded, updated or deleted, by the quantities of that sale; a
    material disappears only by its own deletion. *)
Theorem stock_only_by_sales c env db k :
  let out := serve (execute c) env db in
  (∀ m', materials db !! k = None → materials out.2 !! k = Some m' →
         (∃ data, c = AddMaterial data)
         ∧ Material.total_quantity m' = 0%float)
  ∧ (∀ m m',
       materials db !! k = Some m → materials out.2 !! k = Some m' →
       Material.total_quantity m' = Material.total_quantity m
       ∨ (∃ data, c = AddSale data ∧ SaleData.material_id data = k
            ∧ Material.total_quantity m'
              = (Material.total_quantity m
                 - SaleData.quantity_sold data)%float)
       ∨ (∃ sale_id data sale,
            c = EditSale sale_id data ∧ sales db !! sale_id = Some sale
            ∧ Sale.material_id sale = k
            ∧ Material.total_quantity m'
              = (Material.total_quantity m + Sale.quantity_sold sale
                 - default (Sale.quantity_sold sale)
                     (SaleEdit.quantity_sold data))%float)
       ∨ (∃ sale_id sale,
            c = DeleteSale sale_id ∧ sales db !! sale_id = Some sale
            ∧ Sale.material_id sale = k
            ∧ Material.total_quantity m'
              = (Material.total_quantity m + Sale.quantity_sold sale)%float))
  ∧ (∀ m, materials db !! k = Some m → materials out.2 !! k = None →
          c = DeleteMaterial k).
Proof.
  intros out. subst out. split_and!.
  - destruct c; paths; intros m' H0 H1; table_hyps; try congruence.
    all: eauto.
  - destruct c; paths; intros m m' H0 H1; table_hyps.
    all: try by (left; congruence).
    all: try by rewrite next_id_fresh in H0.
    all: right.
    all: try by (left; eexists; split_and!).
    all: right.
    all: try by (left; eexists _, _, _; split_and!).
    all: try by (right; eexists _, _; split_and!).
    all: left; eexists _, _, _; split_and!; try done.
    all: simpl; case_match; by simplify_eq.
  - destruct c; paths; intros m H0 H1; table_hyps; try congruence.
    all: try by rewrite ?lookup_add_row_old in H1.
Qed.

Lemma stock_only_by_sales_witness :
  Material.total_quantity cotton = 100%float.
Proof.
  assert (materials stocked !! 1 = Some cotton) as Hm by reflexivity.
  destruct (proj1 (proj2 (stock_only_by_sales
              (AddRolls (RollsData.mk "cotton" "enli" [40; 60]%float))
              calm shop 1)) cotton cotton eq_refl Hm)
    as [H|[(? & ? & _)|[(? & ? & ? & ? & _)|(? & ? & ? & _)]]];
    [exact H|discriminate..].
Defined.

(** X8. Over all routes: a roll that appears was added by [add_rolls] to
    a stored material of the name and type asked for, with one of the
    quantities sent; a roll that stays is unchanged unless [update_roll]
    gives it a new quantity; a roll disappears only by its own deletion
    or the deletion of its material. *)
Theorem rolls_only_by_roll_routes c env db k :
  let out := serve (execute c) env db in
  (∀ roll', material_rolls db !! k = None →
            material_rolls out.2 !! k = Some roll' →
            ∃ data material,
              c = AddRolls data
              ∧ materials db !! MaterialRoll.material_id roll' = Some material
              ∧ named (RollsData.name data) (RollsData.type data) material
                = true
              ∧ MaterialRoll.quantity roll' ∈ RollsData.quantities data)
  ∧ (∀ roll roll', material_rolls db !! k = Some roll →
                   material_rolls out.2 !! k = Some roll' →
       roll' = roll
       ∨ ∃ quantity, c = UpdateRoll k quantity
                     ∧ roll' = MaterialRoll.with_quantity quantity roll)
  ∧ (∀ roll, material_rolls db !! k = Some roll →
             material_rolls out.2 !! k = None →
       c = DeleteRoll k ∨ c = DeleteMaterial (MaterialRoll.material_id roll)).
Proof.
  intros out. subst out. split_and!.
  - destruct c; paths; intros r' H0 H1; cbn [material_rolls] in *.
    all: try congruence.
    all: try by (table_hyps; congruence).
    all: apply bulk_save_lookup_new in H1 as [H1|(q & Hq & ->)];
      [congruence|].
    all: apply first_where_Some in Heqo as [Hm Hn].
    all: by eexists _, _; split_and!.
  - destruct c; paths; intros r r' H0 H1; cbn [material_rolls] in *.
    all: try by (left; congruence).
    all: try by (table_hyps; left; congruence).
    all: try by (rewrite (bulk_save_old _ _ _ _ _ _ H0) in H1;
                 left; congruence).
    all: table_hyps; try by left.
    all: right; by eexists.
  - destruct c; paths; intros r H0 H1; cbn [material_rolls] in *.
    all: try congruence.
    all: try by rewrite (bulk_save_old _ _ _ _ _ _ H0) in H1.
    all: table_hyps; try by left.
    all: right; f_equal.
    all: rewrite H0 in H1; unfold of_material in H1.
    all: by case_bool_decide.
Qed.

Lemma rolls_only_by_roll_routes_witness :
  DeleteMaterial 1 = DeleteRoll 2
  ∨ DeleteMaterial 1
    = DeleteMaterial (MaterialRoll.material_id (MaterialRoll.mk 1 60 7)).
Proof.
  exact (proj2 (proj2 (rolls_only_by_roll_routes (DeleteMaterial 1) calm
                         stocked 2)) (MaterialRoll.mk 1 60 7)
           eq_refl eq_refl).
Defined.

(** X9. Over all routes: a sale that appears was recorded by [add_sale]
    on a stored material whose stock was not below the quantity; a sale
    that stays is unchanged unless its customer is deleted, which leaves
    it without a customer, or [edit_sale] gives it a quantity or a price;
    a sale disappears only by its own deletion. *)
Theorem sales_only_by_sale_routes c env db k :
  let out := serve (execute c) env db in
  (∀ sale', sales db !! k = None → sales out.2 !! k = Some sale' →
     ∃ data material,
       c = AddSale data
       ∧ sale' = Sale.mk (SaleData.material_id data)
                   (SaleData.customer_id data) (SaleData.quantity_sold data)
                   (SaleData.price data) (now env)
       ∧ materials db !! SaleData.material_id data = Some material
       ∧ (Material.total_quantity material
          <? SaleData.quantity_sold data)%float = false)
  ∧ (∀ sale sale',
       sales db !! k = Some sale → sales out.2 !! k = Some sale' →
       sale' = sale
       ∨ (∃ customer_id,
            c = DeleteCustomer customer_id
            ∧ Sale.customer_id sale = Some customer_id
            ∧ sale' = Sale.without_customer sale)
       ∨ (∃ data,
            c = EditSale k data
            ∧ sale' = Sale.with_amounts
                        (default (Sale.quantity_sold sale)
                           (SaleEdit.quantity_sold data))
                        (default (Sale.price sale) (SaleEdit.price data))
                        sale))
  ∧ (∀ sale, sales db !! k = Some sale → sales out.2 !! k = None →
       c = DeleteSale k).
Proof.
  intros out. subst out. split_and!.
  - destruct c; paths; intros s' H0 H1; cbn [sales] in *.
    all: try congruence.
    all: table_hyps; try congruence.
    all: eexists _, _; split_and!; try done; congruence.
  - destruct c; paths; intros s s' H0 H1; cbn [sales] in *.
    all: try by (left; congruence).
    all: table_hyps; try by left.
    all: try by rewrite next_id_fresh in H0.
    all: try (right; right; eexists; split; [done|]; simpl;
              repeat case_match; by simplify_eq).
    all: unfold release_sale; case_bool_decide; [|by left].
    all: right; left; by eexists.
  - destruct c; paths; intros s H0 H1; cbn [sales] in *.
    all: try congruence.
    all: table_hyps; try congruence.
    all: by rewrite H0 in H1.
Qed.

Lemma sales_only_by_sale_routes_witness :
  DeleteSale 1 = DeleteSale 1.
Proof.
  exact (proj2 (proj2 (sales_only_by_sale_routes (DeleteSale 1) calm sold 1))
           (Sale.mk 1 None 30 10 7) eq_refl eq_refl).
Defined.

Lemma logged c env db :
  succeeded (serve (execute c) env db).1 →
  ∃ e, activity_log (serve (execute c) env db).2
       = add_row e (activity_log db)
       ∧ ActivityLog.action_type e = action_of c
       ∧ ActivityLog.timestamp e = now env.
Proof.
  destruct c; paths; intros Hok; try failed_request.
  all: by eexists.
Qed.

(** X10. The audit entry of a request that succeeds is stored under the
    next key of the log, with the action of its route (ADD, UPDATE, DELETE
    or SALE) and the time of the request. *)
Theorem audit_action_and_time c env db :
  let out := serve (execute c) env db in
  succeeded out.1 →
  ∃ e, activity_log out.2 !! next_id (activity_log db) = Some e
       ∧ ActivityLog.action_type e = action_of c
       ∧ ActivityLog.timestamp e = now env.
Proof.
  intros out (e & He & Ha & Ht)%logged. exists e. fold out in He.
  rewrite He. split; [apply lookup_add_row_new|done].
Qed.

Lemma audit_action_and_time_witness :
  ∃ e, activity_log (serve (delete_roll 2) calm stocked).2 !! 2 = Some e
       ∧ ActivityLog.action_type e = "DELETE".
Proof.
  destruct (audit_action_and_time (DeleteRoll 2) calm stocked)
    as (e & He & Ha & _).
  - unfold succeeded. vm_compute. lia.
  - exists e. split; [exact He|exact Ha].
Defined.

(** ** Customers and sales *)

(** X11. A successful [delete_customer] removes the customer and leaves
    no sale that refers to them; it keeps every sale and every
    material. *)
Theorem delete_customer_releases_sales env customer_id db :
  let out := serve (delete_customer customer_id) env db in
  succeeded out.1 →
  customers out.2 !! customer_id = None
  ∧ (∀ k sale, sales out.2 !! k = Some sale →
               Sale.customer_id sale ≠ Some customer_id)
  ∧ size (sales out.2) = size (sales db)
  ∧ materials out.2 = materials db.
Proof.
  intros out. subst out. paths; intros Hok; try failed_request.
  all: split_and!; try done.
  all: try apply lookup_delete_eq.
  all: try apply map_size_fmap.
  all: intros k sale Hk; table_hyps.
  all: unfold release_sale; case_bool_decide; simpl; congruence.
Qed.

Lemma delete_customer_releases_sales_witness :
  customers (serve (delete_customer 1) calm shop).2 !! 1 = None.
Proof.
  refine (proj1 (delete_customer_releases_sales calm 1 shop _)).
  unfold succeeded. vm_compute. lia.
Defined.

Lemma add_sale_adds_debt env data db k customer amount_due :
  let out := serve (add_sale data) env db in
  SaleData.customer_id data = Some k →
  SaleData.amount_due data = Some amount_due →
  customers db !! k = Some customer →
  succeeded out.1 →
  customers out.2 !! k
  = Some (Customer.with_debt (Customer.debt customer + amount_due) customer).
Proof.
  intros out Hk Hd Hc. subst out. destruct data as [mid cid q p due].
  simpl in Hk, Hd. subst.
  paths; intros Hok; try failed_request; try congruence.
  all: rewrite lookup_insert_eq; congruence.
Qed.

(** X12. When a sale is recorded and then deleted, the sales table is
    what it was before, so the next sale gets the same key; the customers
    are as the recording left them: the amount due that it added to the
    debt of its customer is not taken back. *)
Theorem record_then_delete env env' data db :
  let out := serve (add_sale data) env db in
  let out' := serve (delete_sale (next_id (sales db))) env' out.2 in
  succeeded out.1 → succeeded out'.1 →
  sales out'.2 = sales db
  ∧ customers out'.2 = customers out.2
  ∧ (∀ k customer amount_due,
       SaleData.customer_id data = Some k →
       SaleData.amount_due data = Some amount_due →
       customers db !! k = Some customer →
       customers out'.2 !! k
       = Some (Customer.with_debt (Customer.debt customer + amount_due)
                 customer)).
Proof.
  intros out out' Hok Hok'.
  destruct (add_sale_succeeded env data db Hok) as (m & Hm & Hms & Hss).
  fold out in Hms, Hss.
  destruct (delete_sale_succeeded env' _ _ Hok')
    as (s & m' & Hs & Hm' & Hms' & Hss').
  fold out' in Hms', Hss'.
  assert (customers out'.2 = customers out.2) as Hc.
  { subst out'. clear Hok' Hms' Hss'. revert Hs Hm'. generalize (out.2).
    intros d Hs Hm'. by paths. }
  split_and!; [|done|].
  - rewrite Hss', Hss. apply delete_insert_id, next_id_fresh.
  - intros k customer due Hk Hd Hcust. rewrite Hc.
    by apply add_sale_adds_debt.
Qed.

Lemma record_then_delete_witness :
  let out := serve (add_sale (SaleData.mk 1 (Some 1) 30 10 (Some 300%float)))
               calm shop in
  customers (serve (delete_sale 1) calm out.2).2 !! 1
  = Some (Customer.with_debt (0 + 300) amina).
Proof.
  refine (proj2 (proj2 (record_then_delete calm calm
            (SaleData.mk 1 (Some 1) 30 10 (Some 300%float)) shop _ _))
            1 amina 300%float eq_refl eq_refl eq_refl).
  - unfold succeeded. vm_compute. lia.
  - unfold succeeded. vm_compute. lia.
Defined.

(** ** The listings *)

(** Unfold a read-only route, then the session monad. *)
Ltac reads :=
  unfold get_materials, get_single_material, get_customers, get_sales,
    get_logs;
  paths.

Section rows_facts.
Context {A : Type}.
Implicit Types (t : gmap nat A) (x : A).

Lemma elem_of_rows t k x : (k, x) ∈ rows t ↔ t !! k = Some x.
Proof.
  unfold rows. rewrite list_elem_of_omap. split.
  - intros (j & _ & Hj). destruct (t !! j) eqn:E; simplify_eq/=. done.
  - intros Hk. exists k. rewrite Hk. split; [|done].
    apply elem_of_seq. split; [lia|]. simpl. apply lookup_lt_next_id. eauto.
Qed.

Lemma rows_add_row x t :
  rows (add_row x t) = (rows t ++ [(next_id t, x)])%list.
Proof.
  unfold rows. rewrite next_id_add_row.
  pose proof (lookup_add_row_new x t) as Hnew.
  assert (∀ k, k < next_id t → add_row x t !! k = t !! k) as Hold.
  { intros k Hk. unfold add_row. rewrite lookup_insert_ne; [done|lia]. }
  revert Hnew Hold. generalize (add_row x t) (next_id t).
  intros t' n Hnew Hold.
  rewrite seq_S, omap_app. simpl. rewrite Hnew. simpl. f_equal.
  apply list_omap_ext, Forall2_same_length_lookup_2; [done|].
  intros i j j' Hj Hj'. simplify_eq. apply lookup_seq in Hj as [-> Hlt].
  by rewrite Hold.
Qed.

Lemma next_id_dom t t' : dom t' = dom t → next_id t' = next_id t.
Proof. unfold next_id. by intros ->. Qed.

Lemma rows_proj {B} (g : A → B) t t' :
  (∀ k, g <$> t' !! k = g <$> t !! k) →
  (λ kx : nat * A, (kx.1, g kx.2)) <$> rows t'
  = (λ kx : nat * A, (kx.1, g kx.2)) <$> rows t.
Proof.
  intros Hg. unfold rows.
  assert (next_id t' = next_id t) as ->.
  { apply next_id_dom, set_eq. intros k. rewrite !elem_of_dom.
    specialize (Hg k). destruct (t' !! k), (t !! k); simplify_eq/=;
      split; intros []; eauto. }
  induction (seq 0 (next_id t)) as [|k ks IH]; [done|]. simpl.
  specialize (Hg k). destruct (t' !! k), (t !! k); simplify_eq/=; congruence.
Qed.

Lemma NoDup_rows t : NoDup (rows t).
Proof.
  unfold rows. generalize (NoDup_seq 0 (next_id t)).
  induction 1 as [|k ks Hk Hks IH]; simpl; [constructor|].
  destruct (t !! k) as [x|] eqn:E; simpl; [|done].
  constructor; [|done]. rewrite list_elem_of_omap. intros (j & Hj & Hx).
  destruct (t !! j); simplify_eq/=. done.
Qed.

Lemma length_rows t : length (rows t) = size t.
Proof.
  rewrite <- (length_map_to_list t).
  apply Permutation_length, NoDup_Permutation.
  - apply NoDup_rows.
  - apply NoDup_map_to_list.
  - intros [k x]. by rewrite elem_of_rows, elem_of_map_to_list.
Qed.
End rows_facts.

(** X13. After a successful [add_customer] the listing of the customers is
    the listing before, followed by the new customer with debt 0. *)
Theorem new_customer_listed_last env env1 env2 data db :
  let out := serve (add_customer data) env db in
  succeeded out.1 →
  items (serve get_customers env2 out.2).1
  = (items (serve get_customers env1 db).1
     ++ [JObj [("id", JInt (next_id (customers db)));
               ("name", JStr (CustomerData.name data));
               ("contact", JStr (CustomerData.contact data));
               ("debt", JNum 0)]])%list.
Proof.
  intros out. subst out. reads; intros Hok; try failed_request.
  all: unfold items; cbn [body fst].
  all: by rewrite rows_add_row, fmap_app.
Qed.

Lemma new_customer_listed_last_witness :
  length (items (serve get_customers calm
                   (serve (add_customer (CustomerData.mk "Bek" "555-0102"))
                      calm shop).2).1) = 2.
Proof.
  rewrite (new_customer_listed_last calm calm calm
             (CustomerData.mk "Bek" "555-0102") shop).
  - reflexivity.
  - unfold succeeded. vm_compute. lia.
Defined.

Lemma material_data_stock db id m q :
  material_data db id (Material.with_total_quantity q m)
  = material_data db id m.
Proof. by destruct m. Qed.

Lemma materials_listing db (l : list (nat * Material.t)) :
  (λ km : nat * Material.t, material_data db km.1 km.2) <$> l
  = (λ km : nat * Material.t, material_data db km.1 km.2)
      <$> ((λ km : nat * Material.t,
              (km.1, Material.with_total_quantity 0 km.2)) <$> l).
Proof.
  rewrite <- list_fmap_compose. apply list_fmap_ext. intros i [k m] _. simpl.
  by rewrite material_data_stock.
Qed.

(** X14. Recording, updating or deleting a sale changes neither the
    listing of the materials nor the view of any material: they do not
    show the stock counter. *)
Theorem materials_listing_hides_stock c env env1 env2 db :
  (∃ data, c = AddSale data) ∨ (∃ sale_id data, c = EditSale sale_id data)
  ∨ (∃ sale_id, c = DeleteSale sale_id) →
  let out := serve (execute c) env db in
  (serve get_materials env2 out.2).1 = (serve get_materials env1 db).1
  ∧ ∀ material_id,
      (serve (get_single_material material_id) env2 out.2).1
      = (serve (get_single_material material_id) env1 db).1.
Proof.
  intros Hc out. subst out.
  assert (material_rolls (serve (execute c) env db).2 = material_rolls db
          ∧ ∀ k, Material.with_total_quantity 0
                   <$> materials (serve (execute c) env db).2 !! k
                 = Material.with_total_quantity 0 <$> materials db !! k)
    as [Hr Hm].
  { destruct Hc as [[data ->]|[(sale_id & data & ->)|[sale_id ->]]].
    all: paths; split; try done; intros k; cbn [materials].
    all: rewrite lookup_insert; case_decide; subst; try done.
    all: match goal with
         | H : materials _ !! _ = Some _ |- _ => by rewrite H
         end. }
  generalize dependent (serve (execute c) env db).2. intros db' Hr Hm. split.
  - unfold get_materials. paths. do 2 f_equal.
    rewrite (materials_listing db'), (materials_listing db).
    rewrite (rows_proj _ _ _ Hm). apply list_fmap_ext. intros i [k m] _.
    unfold material_data, rolls_of. simpl. by rewrite Hr.
  - intros k. specialize (Hm k). unfold get_single_material.
    destruct (materials db' !! k) as [m'|] eqn:E',
             (materials db !! k) as [m|] eqn:E; simpl in Hm;
      try discriminate Hm.
    + apply (inj Some) in Hm. paths. cbn [fst].
      assert (material_data db' k m' = material_data db k m) as ->; [|done].
      rewrite <- (material_data_stock db' k m' 0), Hm, material_data_stock.
      unfold material_data, rolls_of. by rewrite Hr.
    + by paths.
Qed.

Lemma materials_listing_hides_stock_witness :
  (serve get_materials calm sold).1 = (serve get_materials calm shop).1.
Proof.
  refine (proj1 (materials_listing_hides_stock
                   (AddSale (SaleData.mk 1 None 30 10 None)) calm calm calm
                   shop _)).
  left. eexists. reflexivity.
Defined.

Lemma sales_listed db :
  is_Some (mapM (sale_json db) (rows (sales db))) ↔
  ∀ k sale, sales db !! k = Some sale →
            is_Some (materials db !! Sale.material_id sale).
Proof.
  rewrite mapM_is_Some, Forall_forall. split.
  - intros H k sale Hk. apply elem_of_rows, H in Hk.
    unfold sale_json in Hk. simpl in Hk.
    destruct (materials db !! Sale.material_id sale); [eauto|].
    by destruct Hk.
  - intros H [k sale] Hk%elem_of_rows. destruct (H _ _ Hk) as [m Hm].
    unfold sale_json. simpl. rewrite Hm. simpl. eauto.
Qed.

Lemma get_sales_run env db :
  serve get_sales env db
  = match mapM (sale_json db) (rows (sales db)) with
    | Some items => (mkResponse (JList items) 200, db)
    | None => (internal_server_error, db)
    end.
Proof.
  cbv beta iota zeta delta
      [serve get_sales mbind handler_bind query respond raise stored pending].
  by destruct (mapM (sale_json db) (rows (sales db))).
Qed.

(** X15. From a store that keeps its references, after any run of
    requests the listing of the sales is answered 200 with one item per
    stored sale. *)
Theorem sales_listing_never_fails requests env db :
  references_kept db →
  let r := (serve get_sales env (serve_all requests db).2).1 in
  status r = 200
  ∧ length (items r) = size (sales (serve_all requests db).2).
Proof.
  intros Hdb%(references_always_kept requests).
  generalize dependent (serve_all requests db).2. intros db' [_ Hs] r.
  subst r. apply sales_listed in Hs as [l Hl].
  rewrite get_sales_run, Hl. split; [done|].
  unfold items. cbn [body fst]. apply length_mapM in Hl.
  by rewrite <- Hl, length_rows.
Qed.

Lemma sales_listing_never_fails_witness :
  status (serve get_sales calm sold).1 = 200.
Proof.
  refine (proj1 (sales_listing_never_fails
                   [(calm, AddSale (SaleData.mk 1 None 30 10 None))] calm
                   shop references_kept_shop)).
Defined.

(** X16. If some sale refers to a material that is not stored, the
    listing of the sales ends in a server error. *)
Theorem sales_listing_fails env db k sale :
  sales db !! k = Some sale →
  materials db !! Sale.material_id sale = None →
  serve get_sales env db = (internal_server_error, db).
Proof.
  intros Hk Hm. rewrite get_sales_run.
  destruct (mapM (sale_json db) (rows (sales db))) as [l|] eqn:E; [|done].
  assert (is_Some (mapM (sale_json db) (rows (sales db)))) as Hl by eauto.
  rewrite sales_listed in Hl. destruct (Hl _ _ Hk) as [m Hm']. congruence.
Qed.

Lemma sales_listing_fails_witness :
  serve get_sales calm orphaned = (internal_server_error, orphaned).
Proof.
  apply (sales_listing_fails calm orphaned 1 (Sale.mk 5 None 1 1 0));
    reflexivity.
Defined.

Lemma insert_newest_Permutation x l : insert_newest x l ≡ₚ x :: l.
Proof.
  induction l as [|y l IH]; simpl; [done|].
  case_decide; [|done]. rewrite IH. apply Permutation_swap.
Qed.

Lemma newest_first_Permutation l : newest_first l ≡ₚ l.
Proof.
  induction l as [|x l IH]; simpl; [done|].
  by rewrite insert_newest_Permutation, IH.
Qed.

Lemma insert_newest_sorted x l :
  StronglySorted newer l → StronglySorted newer (insert_newest x l).
Proof.
  induction 1 as [|y l Hl IH Hy]; simpl.
  - repeat constructor.
  - case_decide as Hlt.
    + constructor; [done|]. rewrite insert_newest_Permutation.
      constructor; [|done]. unfold newer. lia.
    + constructor; [by constructor|]. constructor; [unfold newer; lia|].
      eapply Forall_impl; [exact Hy|]. unfold newer. intros z Hz. lia.
Qed.

Lemma newest_first_sorted l : StronglySorted newer (newest_first l).
Proof.
  induction l as [|x l IH]; simpl; [constructor|].
  by apply insert_newest_sorted.
Qed.

(** Entries of one timestamp are listed in the order of their keys. *)
Example newest_first_ties :
  (newest_first
     [(1, ActivityLog.mk "ADD" "materials" 1 JNull 7);
      (2, ActivityLog.mk "ADD" "customers" 1 JNull 9);
      (3, ActivityLog.mk "SALE" "sales" 1 JNull 7)]).*1
  = [2; 1; 3].
Proof. reflexivity. Qed.

Lemma get_logs_run env db :
  serve get_logs env db
  = (mkResponse
       (JList (log_json <$> newest_first (rows (activity_log db)))) 200, db).
Proof. reflexivity. Qed.

(** X17. The listing of the audit log is answered 200 with every stored
    entry exactly once, no entry before one with a later timestamp. *)
Theorem logs_newest_first env db :
  ∃ logs,
    serve get_logs env db = (mkResponse (JList (log_json <$> logs)) 200, db)
    ∧ logs ≡ₚ rows (activity_log db)
    ∧ StronglySorted newer logs.
Proof.
  exists (newest_first (rows (activity_log db))). split_and!.
  - apply get_logs_run.
  - apply newest_first_Permutation.
  - apply newest_first_sorted.
Qed.

Lemma newest_is_head (l : list (nat * ActivityLog.t)) x :
  StronglySorted newer l → x ∈ l →
  (∀ y, y ∈ l →
        y = x ∨ ActivityLog.timestamp y.2 < ActivityLog.timestamp x.2) →
  head l = Some x.
Proof.
  intros Hs Hx Hlt. destruct Hs as [|h l Hs Hh]; [by apply elem_of_nil in Hx|].
  simpl. f_equal. destruct (Hlt h (list_elem_of_here _ _)) as [|Hlt']; [done|].
  apply elem_of_cons in Hx as [->|Hx]; [done|].
  rewrite Forall_forall in Hh. specialize (Hh x Hx). unfold newer in Hh. lia.
Qed.

(** X18. When a request succeeds at a time later than every entry of the
    audit log, its entry is the first of the listing of the log. *)
Theorem latest_request_listed_first c env env' db :
  let out := serve (execute c) env db in
  succeeded out.1 →
  (∀ k e, activity_log db !! k = Some e →
          ActivityLog.timestamp e < now env) →
  ∃ e,
    activity_log out.2 !! next_id (activity_log db) = Some e
    ∧ head (items (serve get_logs env' out.2).1)
      = Some (log_json (next_id (activity_log db), e)).
Proof.
  intros out (e & He & _ & Ht)%logged Hold. fold out in He. exists e.
  rewrite He. split; [apply lookup_add_row_new|].
  rewrite get_logs_run.
  pose proof (newest_first_Permutation (rows (activity_log out.2))) as Hp.
  pose proof (newest_first_sorted (rows (activity_log out.2))) as Hs.
  revert Hp Hs. generalize (newest_first (rows (activity_log out.2))).
  intros logs Hp Hs. unfold items. cbn [body fst].
  assert (head logs = Some (next_id (activity_log db), e)) as Hh.
  { apply newest_is_head; [done|..].
    - rewrite Hp, He, rows_add_row, elem_of_app, list_elem_of_singleton.
      by right.
    - intros [k e']. rewrite Hp, He, rows_add_row, elem_of_app, elem_of_rows,
        list_elem_of_singleton.
      intros [Hk| ->]; [|by left]. right. simpl. rewrite Ht. by eapply Hold. }
  destruct logs; by simplify_eq/=.
Qed.

Lemma latest_request_listed_first_witness :
  ∃ e, head (items (serve get_logs calm
                      (serve (delete_roll 2) (mkEnv 8 []) stocked).2).1)
       = Some (log_json (2, e)).
Proof.
  destruct (latest_request_listed_first (DeleteRoll 2) (mkEnv 8 []) calm
              stocked) as (e & _ & He).
  - unfold succeeded. vm_compute. lia.
  - intros k e He.
    assert (k = 1 ∧ ActivityLog.timestamp e = 7) as [_ ->]; [|simpl; lia].
    destruct k as [|[|k]]; [discriminate He| |].
    + injection He as <-. done.
    + exfalso. assert (S (S k) < next_id (activity_log stocked)) as Hlt.
      { apply lookup_lt_next_id. eauto. }
      vm_compute in Hlt. lia.
  - exists e. exact He.
Defined.

(** ** Rolls *)

(** X19. Of the stored materials with the name and type asked for,
    [add_rolls] takes the one of least key: its key is the one a
    successful call answers. *)
Theorem add_rolls_oldest_material env data db :
  let out := serve (add_rolls data) env db in
  succeeded out.1 →
  ∃ material_id material,
    out.1 = message_with
              (pretty (length (RollsData.quantities data))
               +:+ " rolls added successfully!") "material_id" material_id 201
    ∧ materials db !! material_id = Some material
    ∧ named (RollsData.name data) (RollsData.type data) material = true
    ∧ ∀ k m, materials db !! k = Some m →
             named (RollsData.name data) (RollsData.type data) m = true →
             (material_id ≤ k)%nat.
Proof.
  intros out. subst out.
  destruct (first_where (named (RollsData.name data) (RollsData.type data))
              (materials db)) as [[k0 m0]|] eqn:E.
  - pose proof (first_where_Some _ _ _ _ E) as [Hk Hn].
    paths; intros Hok; try failed_request.
    all: eexists _, _; split_and!; try done.
    all: intros k m; by eapply first_where_least.
  - paths. intros; failed_request.
Qed.

Lemma add_rolls_oldest_material_witness :
  (serve (add_rolls (RollsData.mk "cotton" "enli" [40; 60]%float)) calm
     shop).1
  = message_with "2 rolls added successfully!" "material_id" 1 201.
Proof.
  destruct (add_rolls_oldest_material calm
              (RollsData.mk "cotton" "enli" [40; 60]%float) shop)
    as (k & m & -> & Hk & _).
  - unfold succeeded. vm_compute. lia.
  - unfold shop in Hk. cbn [materials] in Hk.
    apply lookup_singleton_Some in Hk as [<- _]. reflexivity.
Defined.






(** X21. The listing of the materials is, in key order, the view of each
    stored material; the view of a key is answered 404 exactly when no
    material is stored under it. *)
Theorem materials_listing_is_single_views env db :
  items (serve get_materials env db).1
  = (λ km : nat * Material.t,
       body (serve (get_single_material km.1) env db).1)
      <$> rows (materials db)
  ∧ ∀ k, status (serve (get_single_material k) env db).1 = 404
         ↔ materials db !! k = None.
Proof.
  split.
  - unfold get_materials. paths. unfold items. cbn [body fst].
    apply list_fmap_ext. intros i [k m] Hk%list_elem_of_lookup_2.
    apply elem_of_rows in Hk. unfold get_single_material. by paths.
  - intros k. unfold get_single_material.
    destruct (materials db !! k) eqn:E; paths; naive_solver.
Qed.
